(** * module-impi: the Impi geometry and its octant voxel source

    A shallow embedding of [ospray/geometry/Impi.cpp], of the scene-graph
    node of [apps/impiViewer.cpp] and of the [TestOctant] voxel source
    declared in [voxelSources/testCase/TestOctant.h].

    - C++ [float] is an IEEE-754 binary32 number, embedded as [spec_float]
      (sign, mantissa, exponent; NaN and the infinities are values).
    - A parameter buffer ([Data::data], a [void*]) is a sequence of 32-bit
      words; the casts of [commit] are views of that sequence.
    - A null-pointer dereference, a read past the end of a buffer, an
      unrepresentable float-to-int conversion and an uncaught exception
      end the run: they are the [Crash] outcomes of the [result] monad. *)

From Stdlib Require Import ZArith NArith List Lia Bool.
From Stdlib Require Import SpecFloat Ascii.
From stdpp Require Import base option list strings gmap.

Open Scope Z_scope.

(** ** Outcomes *)

Inductive Fault :=
| NullPointerDereference
| OutOfBoundsRead
| FloatToIntOverflow
| UncaughtException (what : string).

Inductive result (A : Type) :=
| Ok (a : A)
| Crash (f : Fault).
Arguments Ok {A} a.
Arguments Crash {A} f.

Definition result_bind {A B} (f : A -> result B) (m : result A) : result B :=
  match m with
  | Ok a => f a
  | Crash e => Crash e
  end.

#[global] Instance result_mret : MRet result := fun _ a => Ok a.
#[global] Instance result_mbind : MBind result := fun _ _ f m => result_bind f m.

Definition is_Ok {A} (r : result A) : bool :=
  match r with Ok _ => true | Crash _ => false end.

(** [p->field] on a possibly null pointer. *)
Definition deref {A} (p : option A) : result A :=
  match p with
  | Some a => Ok a
  | None => Crash NullPointerDereference
  end.

(** [p[i]] on a pointer into a buffer: the elements readable from [p] on. *)
Definition read {A} (p : list A) (i : nat) : result A :=
  match p !! i with
  | Some a => Ok a
  | None => Crash OutOfBoundsRead
  end.

(** ** binary32 floats *)

Definition float := spec_float.

Definition prec32 : Z := 24.
Definition emax32 : Z := 128.

(** The value a 32-bit word denotes when read through a [float*]. *)
Definition bits_to_float (w : Z) : float :=
  let s := Z.testbit w 31 in
  let e := Z.land (Z.shiftr w 23) 255 in
  let m := Z.land w (2 ^ 23 - 1) in
  if e =? 0 then
    (if m =? 0 then S754_zero s else S754_finite s (Z.to_pos m) (-149))
  else if e =? 255 then
    (if m =? 0 then S754_infinity s else S754_nan)
  else S754_finite s (Z.to_pos (m + 2 ^ 23)) (e - 150).

(** The literals of the source. *)
Definition f0 : float := S754_zero false.
Definition f1 : float := S754_finite false 8388608 (-23).
Definition f0_7 : float := S754_finite false 11744051 (-24).
Definition f20 : float := S754_finite false 10485760 (-19).
Definition f3_2 : float := S754_finite false 13421773 (-22).
Definition f0_5 : float := S754_finite false 8388608 (-24).

(** [(int)f]: truncation towards zero; outside the range of a 32-bit [int]
    (and for NaN and the infinities) the conversion is undefined. *)
Definition float_to_int (f : float) : result Z :=
  match f with
  | S754_zero _ => Ok 0
  | S754_finite s m e =>
      let mag := Z.shiftl (Z.pos m) e in
      let v := if s then - mag else mag in
      if (- 2 ^ 31 <=? v) && (v <? 2 ^ 31) then Ok v
      else Crash FloatToIntOverflow
  | S754_infinity _ | S754_nan => Crash FloatToIntOverflow
  end.

(** [a < b] and [a <= b] on floats: false as soon as one side is NaN. *)
Definition flt (a b : float) : bool := SFltb a b.
Definition fle (a b : float) : bool := SFleb a b.

(** ospcommon's [min] and [max]: [a < b ? a : b] and [a < b ? b : a]. *)
Definition fmin (a b : float) : float := if flt a b then a else b.
Definition fmax (a b : float) : float := if flt a b then b else a.

Definition fadd (a b : float) : float := SFadd prec32 emax32 a b.

(** ** Vectors and boxes *)

Record vec3f := mk_vec3f { vx : float; vy : float; vz : float }.
Record vec3i := mk_vec3i { ix : Z; iy : Z; iz : Z }.

(** [vec3f(s)] and [vec3i(s)]: the scalar in every component. *)
Definition vec3f_of (s : float) : vec3f := mk_vec3f s s s.
Definition vec3i_of (s : Z) : vec3i := mk_vec3i s s s.

Definition vec3f_add (a b : vec3f) : vec3f :=
  mk_vec3f (fadd (vx a) (vx b)) (fadd (vy a) (vy b)) (fadd (vz a) (vz b)).

(** [box3f]; [box3fa] differs only by the unused padding lane of its
    corners, which carries no value and is left out. *)
Record box3f := mk_box3f { lower : vec3f; upper : vec3f }.
Definition box3fa := box3f.

(** ** Voxels and the octant source *)

(** [Impi::VoxelRef] is a [uint64_t]. *)
Definition VoxelRef := N.

(** Modelled from the spec: [Impi.h], which declares [Impi::Voxel], is not
    among the sources. A voxel is "an axis-aligned bounds box" and "an
    8-element array of scalar corner values", corner index x + 2y + 4z. *)
Record Voxel := mk_Voxel { voxel_bounds : box3fa; vtx : list float }.

(** [struct Octant] of TestOctant.h. [vertexValue[2][2][2]] is kept in
    memory order: the value of corner (x,y,z) at index 4z + 2y + x. *)
Record Octant := mk_Octant {
  bounds : box3f;
  width : float;
  vertexValue : list float
}.

(** [struct TestOctant : Impi::VoxelSource]; its only data member is the
    vector of octants. *)
Record TestOctant := mk_TestOctant { octants : list Octant }.

(** Modelled from the spec: the constructor is defined in TestOctant.cpp,
    which is not among the sources. The source "is populated from
    parameters", so a new one holds no octant. *)
Definition TestOctant_new : TestOctant := mk_TestOctant [].

(** Modelled from the spec: part of the enumeration of TestOctant.cpp. The
    "corner-value range [min(corners), max(corners)]" of a cell. *)
Definition cornerRange (vs : list float) : option (float * float) :=
  match vs with
  | [] => None
  | v :: rest => Some (fold_left fmin rest v, fold_left fmax rest v)
  end.

(** Modelled from the spec: part of the enumeration of TestOctant.cpp. The
    iso-range condition: the corner-value range "contains isoValue". *)
Definition octantActive (isoValue : float) (o : Octant) : bool :=
  match cornerRange (vertexValue o) with
  | Some (lo, hi) => fle lo isoValue && fle isoValue hi
  | None => false
  end.

(** Modelled from the spec: part of the enumeration of TestOctant.cpp. The
    body of the linear pass: [if (active) out.push_back(i)]. *)
Definition pushIfActive (isoValue : float)
    (out : list VoxelRef) (io : nat * Octant) : list VoxelRef :=
  if octantActive isoValue (snd io) then out ++ [N.of_nat (fst io)] else out.

(** Modelled from the spec: [TestOctant::getActiveVoxels] is defined in
    TestOctant.cpp, which is not among the sources. "Enumeration is a
    single linear pass over the octant sequence, each entry tested
    independently for the iso-range condition"; the reference "encodes an
    index into this sequence directly"; the list is "a fresh result each
    call", so the vector received by reference is emptied first. *)
Definition TestOctant_getActiveVoxels (self : TestOctant)
    (activeVoxels : list VoxelRef) (isoValue : float) : list VoxelRef :=
  let cleared : list VoxelRef := [] in
  fold_left (pushIfActive isoValue) (imap pair (octants self)) cleared.

(** Modelled from the spec: [TestOctant::getVoxelBounds] is defined in
    TestOctant.cpp. It is a "pure decode of the reference plus table
    lookup": the bounds of the octant at that index. *)
Definition TestOctant_getVoxelBounds (self : TestOctant)
    (voxelRef : VoxelRef) : result box3fa :=
  o ← read (octants self) (N.to_nat voxelRef);
  Ok (bounds o).

(** Modelled from the spec: [TestOctant::getVoxel] is defined in
    TestOctant.cpp. It "must return bounds and all 8 corner values". *)
Definition TestOctant_getVoxel (self : TestOctant)
    (voxelRef : VoxelRef) : result Voxel :=
  o ← read (octants self) (N.to_nat voxelRef);
  Ok (mk_Voxel (bounds o) (vertexValue o)).

(** Modelled from the spec: part of [initData] of TestOctant.cpp. The eight
    corner values [p[0..7]] of one octant. *)
Definition read8 (p : list float) : result (list float) :=
  if decide (8 <= length p)%nat then Ok (take 8 p)
  else Crash OutOfBoundsRead.

(** Modelled from the spec: part of [initData] of TestOctant.cpp. The octant
    record of entry [i] of the three arrays. *)
Definition parseOctantEntry (pointBuff : list vec3f) (widthBuff : list float)
    (valueBuff : list float) (i : nat) : result Octant :=
  p ← read pointBuff i;
  w ← read widthBuff i;
  vs ← read8 (drop (8 * i) valueBuff);
  Ok (mk_Octant (mk_box3f p (vec3f_add p (vec3f_of w))) w vs).

(** Modelled from the spec: part of [initData] of TestOctant.cpp. One
    record per entry, in the order of the entries. *)
Fixpoint parseOctantEntries (pointBuff : list vec3f) (widthBuff : list float)
    (valueBuff : list float) (idxs : list nat) : result (list Octant) :=
  match idxs with
  | [] => Ok []
  | i :: rest =>
      o ← parseOctantEntry pointBuff widthBuff valueBuff i;
      os ← parseOctantEntries pointBuff widthBuff valueBuff rest;
      Ok (o :: os)
  end.

(** Modelled from the spec: [TestOctant::initData] is defined in
    TestOctant.cpp; its arguments are those of the call in [Impi::commit].
    It reads "a per-octant width list, a per-octant lower-corner position
    list, and a flattened per-octant 8-corner value list, producing one
    Octant record per entry in lock-step"; the box of an octant spans from
    its lower corner over its width. *)
Definition TestOctant_initData (octNum : Z) (pointBuff : list vec3f)
    (widthBuff : list float) (valueBuff : list float)
    (self : TestOctant) : result TestOctant :=
  os ← parseOctantEntries pointBuff widthBuff valueBuff (seq 0 (Z.to_nat octNum));
  Ok (mk_TestOctant os).

(** ** The VoxelSource interface *)

(** An object of one of the other classes derived from [Impi::VoxelSource]
    (TestVoxel, TestAMR, StructuredVolumeSource, SegmentedVolumeSource):
    their definitions are not among the sources, so such an object is the
    table of its three virtual methods. *)
Record OtherSource := mk_OtherSource {
  other_getActiveVoxels : list VoxelRef -> float -> list VoxelRef;
  other_getVoxelBounds : VoxelRef -> result box3fa;
  other_getVoxel : VoxelRef -> result Voxel
}.

(** What a [std::shared_ptr<Impi::VoxelSource>] points to, by dynamic type. *)
Inductive VoxelSource :=
| SrcTestOctant (o : TestOctant)
| SrcOther (o : OtherSource).

(** Virtual dispatch. *)
Definition getActiveVoxels (src : VoxelSource)
    (activeVoxels : list VoxelRef) (isoValue : float) : list VoxelRef :=
  match src with
  | SrcTestOctant o => TestOctant_getActiveVoxels o activeVoxels isoValue
  | SrcOther o => other_getActiveVoxels o activeVoxels isoValue
  end.

Definition getVoxelBounds (src : VoxelSource) (voxelRef : VoxelRef)
    : result box3fa :=
  match src with
  | SrcTestOctant o => TestOctant_getVoxelBounds o voxelRef
  | SrcOther o => other_getVoxelBounds o voxelRef
  end.

Definition getVoxel (src : VoxelSource) (voxelRef : VoxelRef) : result Voxel :=
  match src with
  | SrcTestOctant o => TestOctant_getVoxel o voxelRef
  | SrcOther o => other_getVoxel o voxelRef
  end.

(** [std::dynamic_pointer_cast<testCase::TestOctant>]: null unless the
    object is a TestOctant. *)
Definition dynamic_pointer_cast_TestOctant (src : option VoxelSource)
    : option TestOctant :=
  match src with
  | Some (SrcTestOctant o) => Some o
  | _ => None
  end.

(** ** Parameters of the geometry *)

(** [ospray::Data]: the buffer behind its [void *data], as 32-bit words. *)
Record Data := mk_Data { data : list Z }.

(** A parameter set on the object by the application. *)
Inductive Param :=
| ParamData (d : Data)
| ParamFloat (f : float)
| ParamOther.

(** [getParamData(name)]: the data object of that name, null by default. *)
Definition getParamData (params : gmap string Param) (name : string)
    : option Data :=
  match params !! name with
  | Some (ParamData d) => Some d
  | _ => None
  end.

(** [getParam1f(name, valIfNotFound)]. *)
Definition getParam1f (params : gmap string Param) (name : string)
    (valIfNotFound : float) : float :=
  match params !! name with
  | Some (ParamFloat f) => f
  | _ => valIfNotFound
  end.

(** The view of a buffer through a [float] pointer. *)
Definition as_floats (ws : list Z) : list float := bits_to_float <$> ws.

(** The view of a buffer through a [vec3f] pointer: three floats per
    element. *)
Fixpoint as_vec3f (ws : list Z) : list vec3f :=
  match ws with
  | x :: y :: z :: rest =>
      mk_vec3f (bits_to_float x) (bits_to_float y) (bits_to_float z)
        :: as_vec3f rest
  | _ => []
  end.

(** ** The geometry *)

(** The data members of [Impi] that Impi.cpp uses. *)
Record Impi := mk_Impi {
  voxelSource : option VoxelSource;
  isoValue : float;
  activeVoxelRefs : list VoxelRef
}.

(** [Impi::initVoxelSourceAndIsoValue] as compiled: of the chain of
    preprocessor branches, [#elif 1] is the one taken. *)
Definition initVoxelSourceAndIsoValue (self : Impi) : result Impi :=
  Ok (mk_Impi (Some (SrcTestOctant TestOctant_new)) f0_7 (activeVoxelRefs self)).

(** [Impi::commit], over the function that creates the source. *)
Definition commit_body (init : Impi -> result Impi)
    (params : gmap string Param) (self : Impi) : result Impi :=
  self ← (match voxelSource self with
          | None =>
              self ← init self;
              octWData ← deref (getParamData params "octantWidthArray");
              let octWDataf := as_floats (data octWData) in
              count ← read octWDataf 0;
              octNum ← float_to_int count;
              let octWBuff := drop 1 octWDataf in
              octPData ← deref (getParamData params "octantPointArray");
              let octPDatav := as_vec3f (data octPData) in
              octVData ← deref (getParamData params "octantValueArray");
              let octVDataf := as_floats (data octVData) in
              testOct ← deref (dynamic_pointer_cast_TestOctant (voxelSource self));
              testOct ← TestOctant_initData octNum octPDatav octWBuff octVDataf testOct;
              Ok (mk_Impi (Some (SrcTestOctant testOct)) (isoValue self)
                          (activeVoxelRefs self))
          | Some _ => Ok self
          end);
  Ok (mk_Impi (voxelSource self) (getParam1f params "isoValue" f0_7)
              (activeVoxelRefs self)).

Definition commit (params : gmap string Param) (self : Impi) : result Impi :=
  commit_body initVoxelSourceAndIsoValue params self.

(** [externC_getVoxelBounds] and [externC_getVoxel]: the callbacks of the
    intersection kernel. *)
Definition externC_getVoxelBounds (self : Impi) (voxelRef : VoxelRef)
    : result box3fa :=
  src ← deref (voxelSource self);
  getVoxelBounds src voxelRef.

Definition externC_getVoxel (self : Impi) (voxelRef : VoxelRef)
    : result Voxel :=
  src ← deref (voxelSource self);
  getVoxel src voxelRef.

(** What [Impi::finalize] hands to [ispc::Impi_finalize]: the reference
    list, its size and the iso-value. *)
Record Handoff := mk_Handoff {
  h_voxelRefs : list VoxelRef;
  h_numVoxelRefs : nat;
  h_isoValue : float
}.

(** [Impi::finalize]. *)
Definition finalize (self : Impi) : result (Impi * Handoff) :=
  src ← deref (voxelSource self);
  let refs := getActiveVoxels src (activeVoxelRefs self) (isoValue self) in
  Ok (mk_Impi (voxelSource self) (isoValue self) refs,
      mk_Handoff refs (length refs) (isoValue self)).

(** ** The preprocessor branches of [initVoxelSourceAndIsoValue] *)

(** [structured::VolumeT<float>]: dimensions and sample buffer. *)
Record LogicalVolume := mk_LogicalVolume { dims : vec3i; value : list float }.

(** [loadRAW] returns a volume or throws a [std::runtime_error]. *)
Inductive LoadResult :=
| Loaded (v : LogicalVolume)
| Throws (what : string).

(** The constructors and helpers the branches not compiled would call;
    none of them is defined among the sources. *)
Record Externals := mk_Externals {
  TestVoxel_new : OtherSource;
  TestAMR_new : OtherSource;
  createTestVolume : vec3i -> LogicalVolume;
  loadRAW : string -> vec3i -> LoadResult;
  StructuredVolumeSource_new : LogicalVolume -> OtherSource;
  SegmentedVolumeSource_new : LogicalVolume -> LogicalVolume -> Z -> OtherSource
}.

(** The conditions of [#if], [#elif], [#elif], [#elif], [#elif], in order. *)
Record Conditions := mk_Conditions {
  cond0 : bool; cond1 : bool; cond2 : bool; cond3 : bool; cond4 : bool
}.

(** The conditions as they stand in the source: [0 1 0 0 0]. *)
Definition compiled : Conditions := mk_Conditions false true false false false.

Definition withSource (self : Impi) (iso : float) (src : VoxelSource) : Impi :=
  mk_Impi (Some src) iso (activeVoxelRefs self).

(** The whole chain of branches, over the conditions. *)
Definition initVoxelSourceAndIsoValue_cond (ext : Externals) (c : Conditions)
    (self : Impi) : result Impi :=
  if cond0 c then
    Ok (withSource self f20 (SrcOther (TestVoxel_new ext)))
  else if cond1 c then
    Ok (withSource self f0_7 (SrcTestOctant TestOctant_new))
  else if cond2 c then
    Ok (withSource self f3_2 (SrcOther (TestAMR_new ext)))
  else if cond3 c then
    let volume := createTestVolume ext (vec3i_of 64) in
    Ok (withSource self f0_5 (SrcOther (StructuredVolumeSource_new ext volume)))
  else if cond4 c then
    match loadRAW ext "magnetic.raw" (vec3i_of 512) with
    | Loaded volume =>
        Ok (withSource self f1 (SrcOther (StructuredVolumeSource_new ext volume)))
    | Throws _ =>
        let volume := createTestVolume ext (vec3i_of 64) in
        Ok (withSource self f0_5 (SrcOther (StructuredVolumeSource_new ext volume)))
    end
  else
    match loadRAW ext "density_064_064_2.0.raw" (vec3i_of 64) with
    | Throws what => Crash (UncaughtException what)
    | Loaded volume =>
        match loadRAW ext "density_064_064_2.0_seg.raw" (vec3i_of 64) with
        | Throws what => Crash (UncaughtException what)
        | Loaded segvol =>
            Ok (withSource self f20
                  (SrcOther (SegmentedVolumeSource_new ext volume segvol 128)))
        end
    end.

Definition commit_cond (ext : Externals) (c : Conditions)
    (params : gmap string Param) (self : Impi) : result Impi :=
  commit_body (initVoxelSourceAndIsoValue_cond ext c) params self.

(** Whether the branch taken under [c] is the one that makes a TestOctant. *)
Definition selectsTestOctant (c : Conditions) : bool :=
  negb (cond0 c) && cond1 c.

(** ** The scene-graph node of the viewer *)

Inductive SGValue :=
| SGFloat (f : float)
| SGPointer
| SGOther.

(** [struct ImpiSGNode : sg::Geometry]: a named node and its children. *)
Record ImpiSGNode := mk_ImpiSGNode {
  node_name : string;
  node_type : string;
  node_children : gmap string SGValue
}.

(** [ImpiSGNode::bounds]. *)
Definition ImpiSGNode_bounds (self : ImpiSGNode) : box3f :=
  mk_box3f (vec3f_of f0) (vec3f_of f1).

(** ** Calls on an octant source *)

(** The member functions of TestOctant, as a caller can issue them. *)
Inductive SourceCall :=
| CallInitData (octNum : Z) (pointBuff : list vec3f)
    (widthBuff : list float) (valueBuff : list float)
| CallGetActiveVoxels (activeVoxels : list VoxelRef) (isoValue : float)
| CallGetVoxelBounds (voxelRef : VoxelRef)
| CallGetVoxel (voxelRef : VoxelRef).

Inductive Reply :=
| ReplyVoid
| ReplyVoxelRefs (refs : list VoxelRef)
| ReplyBounds (b : box3fa)
| ReplyVoxel (v : Voxel).

(** One call: the source after it and what it returned. The three
    functions declared [const] leave the source as it is. *)
Definition call (self : TestOctant) (c : SourceCall)
    : result (TestOctant * Reply) :=
  match c with
  | CallInitData octNum pointBuff widthBuff valueBuff =>
      self' ← TestOctant_initData octNum pointBuff widthBuff valueBuff self;
      Ok (self', ReplyVoid)
  | CallGetActiveVoxels activeVoxels iso =>
      Ok (self, ReplyVoxelRefs (TestOctant_getActiveVoxels self activeVoxels iso))
  | CallGetVoxelBounds voxelRef =>
      b ← TestOctant_getVoxelBounds self voxelRef;
      Ok (self, ReplyBounds b)
  | CallGetVoxel voxelRef =>
      v ← TestOctant_getVoxel self voxelRef;
      Ok (self, ReplyVoxel v)
  end.

Fixpoint calls (self : TestOctant) (cs : list SourceCall)
    : result (TestOctant * list Reply) :=
  match cs with
  | [] => Ok (self, [])
  | c :: rest =>
      '(self', r) ← call self c;
      '(self'', rs) ← calls self' rest;
      Ok (self'', r :: rs)
  end.

Definition isInitData (c : SourceCall) : bool :=
  match c with
  | CallInitData _ _ _ _ => true
  | _ => false
  end.

(** ** Stored corner values *)

(** Every corner value stored in the source. *)
Definition cornerValues (self : TestOctant) : list float :=
  octants self ≫= vertexValue.

(** [isoValue] strictly above, respectively strictly below, every stored
    corner value, hence the largest, respectively the smallest, of them. *)
Definition aboveGlobalMax (self : TestOctant) (isoValue : float) : Prop :=
  Forall (fun v => flt v isoValue = true) (cornerValues self).

Definition belowGlobalMin (self : TestOctant) (isoValue : float) : Prop :=
  Forall (fun v => flt isoValue v = true) (cornerValues self).

(** The largest and the smallest stored corner value, by [max] and [min]. *)
Definition globalMax (self : TestOctant) : option float :=
  match cornerValues self with
  | [] => None
  | v :: rest => Some (fold_left fmax rest v)
  end.

Definition globalMin (self : TestOctant) : option float :=
  match cornerValues self with
  | [] => None
  | v :: rest => Some (fold_left fmin rest v)
  end.

(** ** Sample data *)

Module Sample.

(** The words of 2.0f, 1.0f, 0.5f, 0.7f and 0.0f. *)
Definition w2 : Z := 1073741824.
Definition w1 : Z := 1065353216.
Definition w0_5 : Z := 1056964608.
Definition w0_7 : Z := 1060320051.
Definition w0 : Z := 0.

(** Two octants: a unit cell and a cell of width one half. *)
Definition widthArray : Data := mk_Data [w2; w1; w0_5].
Definition pointArray : Data := mk_Data [w0; w0; w0; w0; w0; w0].
Definition valueArray : Data :=
  mk_Data [w0; w0; w0; w0; w1; w1; w1; w1;
           w0; w0; w0; w0; w0_5; w0_5; w0_5; w0_5].

Definition arrays : gmap string Param :=
  <["octantWidthArray" := ParamData widthArray]>
    (<["octantPointArray" := ParamData pointArray]>
       (<["octantValueArray" := ParamData valueArray]> ∅)).

Definition params : gmap string Param :=
  <["isoValue" := ParamFloat f0_5]> arrays.

Definition noWidth : gmap string Param := delete "octantWidthArray" params.

Definition fresh : Impi := mk_Impi None f0 [].

Definition corners0 : list float := [f0; f0; f0; f0; f1; f1; f1; f1].
Definition corners1 : list float :=
  [f0; f0; f0; f0; f0_5; f0_5; f0_5; f0_5].

Definition octant0 : Octant :=
  mk_Octant (mk_box3f (vec3f_of f0) (vec3f_of f1)) f1 corners0.
Definition octant1 : Octant :=
  mk_Octant (mk_box3f (vec3f_of f0) (vec3f_of f0_5)) f0_5 corners1.

Definition source : TestOctant := mk_TestOctant [octant0; octant1].

Definition committed : Impi := mk_Impi (Some (SrcTestOctant source)) f0_7 [].

Definition stale : Impi :=
  mk_Impi (Some (SrcTestOctant source)) f0_7 [7%N; 1%N].

(** A source of another class: it reports no voxel at all. *)
Definition other : OtherSource :=
  mk_OtherSource (fun _ _ => []) (fun _ => Crash OutOfBoundsRead)
                 (fun _ => Crash OutOfBoundsRead).

Definition externals : Externals :=
  mk_Externals other other (fun d => mk_LogicalVolume d [])
               (fun _ _ => Throws "could not load volume")
               (fun _ => other) (fun _ _ _ => other).

Definition f2 : float := S754_finite false 8388608 (-22).
Definition fminus1 : float := S754_finite true 8388608 (-23).

End Sample.

(** A run of commits, one parameter set after the other. *)
Fixpoint commits (ps : list (gmap string Param)) (self : Impi) : result Impi :=
  match ps with
  | [] => Ok self
  | p :: rest => self' ← commit p self; commits rest self'
  end.

(** The enumeration as the spec words it: the references of "exactly the
    cells whose scalar range straddles" the iso-value, in sequence order. *)
Definition activeRefs (self : TestOctant) (isoValue : float) : list VoxelRef :=
  (fun io : nat * Octant => N.of_nat (fst io)) <$>
      (filter (fun io : nat * Octant => octantActive isoValue (snd io) = true)
              (imap pair (octants self))).

(** ** An order key for binary32 values *)

Definition isNaN (a : float) : bool :=
  match a with S754_nan => true | _ => false end.

(** Class, exponent and mantissa, signed so that the lexicographic order of
    the keys is the order [<] of the values that are not NaN. *)
Definition key (a : float) : Z * Z * Z :=
  match a with
  | S754_nan => (0, 0, 0)
  | S754_zero _ => (0, 0, 0)
  | S754_infinity s => (if s then -2 else 2, 0, 0)
  | S754_finite s m e =>
      if s then (-1, - e, - Z.pos m) else (1, e, Z.pos m)
  end.

Definition lexlt (x y : Z * Z * Z) : Prop :=
  x.1.1 < y.1.1 \/
  (x.1.1 = y.1.1 /\ (x.1.2 < y.1.2 \/ (x.1.2 = y.1.2 /\ x.2 < y.2))).

(** No stored corner value is NaN. *)
Definition noNaN (self : TestOctant) : Prop :=
  Forall (fun v => isNaN v = false) (cornerValues self).

(** ** Calls on the geometry *)

(** What the renderer and the intersection kernel do with an [Impi]. *)
Inductive ImpiCall :=
| DoCommit (params : gmap string Param)
| DoFinalize
| DoGetVoxelBounds (voxelRef : VoxelRef)
| DoGetVoxel (voxelRef : VoxelRef).

(** One call, keeping the geometry it leaves. *)
Definition perform (self : Impi) (c : ImpiCall) : result Impi :=
  match c with
  | DoCommit params => commit params self
  | DoFinalize => sh ← finalize self; Ok (fst sh)
  | DoGetVoxelBounds voxelRef =>
      _ ← externC_getVoxelBounds self voxelRef; Ok self
  | DoGetVoxel voxelRef =>
      _ ← externC_getVoxel self voxelRef; Ok self
  end.

Fixpoint performAll (self : Impi) (cs : list ImpiCall) : result Impi :=
  match cs with
  | [] => Ok self
  | c :: rest => self' ← perform self c; performAll self' rest
  end.

Definition isCallback (c : ImpiCall) : bool :=
  match c with
  | DoGetVoxelBounds _ | DoGetVoxel _ => true
  | _ => false
  end.

(** ** The iso-value the viewer picks *)

(** [std::string::find_last_of(c)]: the index of the last [c], if any. *)
Fixpoint find_last_of (s : string) (c : ascii) : option nat :=
  match s with
  | EmptyString => None
  | String a rest =>
      match find_last_of rest c with
      | Some i => Some (S i)
      | None => if Ascii.eqb a c then Some 0%nat else None
      end
  end.

(** The result of [find_last_of] stored in an [int]: [npos] becomes -1. *)
Definition pos_to_int (r : option nat) : Z :=
  match r with
  | Some i => Z.of_nat i
  | None => -1
  end.

Fixpoint string_drop (n : nat) (s : string) : string :=
  match n, s with
  | O, _ => s
  | S n', EmptyString => EmptyString
  | S n', String _ rest => string_drop n' rest
  end.

(** [std::string::substr(pos)]: the rest of the string from [pos] on; it
    throws [std::out_of_range] when [pos] is past the end. *)
Definition substr (s : string) (pos : Z) : result string :=
  if pos <=? Z.of_nat (String.length s) then Ok (string_drop (Z.to_nat pos) s)
  else Crash (UncaughtException "out_of_range").

(** The literal [99000.0f]. *)
Definition f99000 : float := S754_finite false 12672000 (-7).

(** The file name that [main] of impiViewer.cpp cuts out of [av[1]]. *)
Definition viewerFileName (filePath : string) : result string :=
  let pos := pos_to_int (find_last_of filePath "/"%char) in
  substr filePath (pos + 1).

(** The iso-value that [main] gives to the "isoValue" child of the node. *)
Definition viewerIsoValue (filePath : string) : result float :=
  let isoValue := f0 in
  fileName ← viewerFileName filePath;
  let isoValue :=
    if String.eqb fileName "chombo_amr.osp" then f0_7 else isoValue in
  let isoValue :=
    if String.eqb fileName "cb.osp" then f99000 else isoValue in
  Ok isoValue.

(** ** The materials of the scene-graph node *)

(** An [OSPObject] handle; 0 is the null handle. *)
Definition OSPObject := N.

(** The loop body of [ImpiSGNode::postCommit]: [if (m) mats.push_back(m)]. *)
Definition pushMaterial (mats : list OSPObject) (m : OSPObject)
    : list OSPObject :=
  if (m =? 0)%N then mats else mats ++ [m].

(** [ImpiSGNode::postCommit], up to the call of [Geometry::postCommit]: the
    items of the data it sets as "materialList", if it sets one. The
    argument holds [valueAs<OSPObject>()] of each node of the material
    list. *)
Definition postCommit_materialList (materialList : list OSPObject)
    : option (list OSPObject) :=
  if decide (materialList = []) then None
  else Some (fold_left pushMaterial materialList []).

(** ** The count as a number *)

(** The integer part of the binary32 number with sign [s], exponent field
    [E] (from 1 to 254) and fraction field [M]: the value is
    (2^23 + M) * 2^(E - 150), negated when [s] is set, and the part after
    the point is dropped. *)
Definition truncatedCount (s : bool) (E M : Z) : Z :=
  (if s then -1 else 1) *
  (if 150 <=? E then (2 ^ 23 + M) * 2 ^ (E - 150)
   else (2 ^ 23 + M) / 2 ^ (150 - E)).

(** * Properties *)

(** ** The result monad *)

Lemma bind_Ok {A B} (f : A -> result B) (a : A) : (Ok a ≫= f) = f a.
Proof. reflexivity. Qed.

Lemma bind_Crash {A B} (f : A -> result B) (e : Fault) : (Crash e ≫= f) = Crash e.
Proof. reflexivity. Qed.

Lemma bind_inv_Ok {A B} (f : A -> result B) (m : result A) (b : B) :
  (m ≫= f) = Ok b -> exists a, m = Ok a /\ f a = Ok b.
Proof. destruct m as [a|e]; [exists a; auto | discriminate]. Qed.

Lemma read_Ok {A} (p : list A) (i : nat) (a : A) :
  read p i = Ok a <-> p !! i = Some a.
Proof. unfold read. destruct (p !! i); split; congruence. Qed.

(** ** Order of binary32 values *)

Lemma compare_cont_Eq_swap (p q : positive) :
  Pos.compare_cont Eq q p = CompOpp (Pos.compare_cont Eq p q).
Proof. now rewrite Pos.compare_cont_antisym. Qed.

Lemma SFcompare_Lt_Gt (a b : float) :
  SFcompare a b = Some Lt -> SFcompare b a = Some Gt.
Proof.
  destruct a as [sa|sa| |sa ma ea], b as [sb|sb| |sb mb eb]; simpl;
    try discriminate; try (destruct sa; try destruct sb; congruence).
  destruct sa, sb; try congruence; rewrite (Z.compare_antisym ea eb);
    destruct (ea ?= eb); simpl; try congruence;
    rewrite (compare_cont_Eq_swap ma mb);
    destruct (Pos.compare_cont Eq ma mb); simpl; congruence.
Qed.

Lemma flt_not_fle (a b : float) : flt a b = true -> fle b a = false.
Proof.
  unfold flt, fle, SFltb, SFleb. intros H.
  destruct (SFcompare a b) as [[]|] eqn:E; try discriminate.
  now rewrite (SFcompare_Lt_Gt _ _ E).
Qed.

Lemma flt_key (a b : float) :
  flt a b = true <-> isNaN a = false /\ isNaN b = false /\ lexlt (key a) (key b).
Proof.
  unfold flt, SFltb, lexlt.
  destruct a as [sa|sa| |sa ma ea], b as [sb|sb| |sb mb eb]; simpl;
    try (destruct sa); try (destruct sb); simpl;
    try (split; [discriminate | intros (? & ? & ?); try discriminate; lia]);
    try (split; [intros _; repeat split; lia | reflexivity]).
  all: change (Pos.compare_cont Eq ma mb) with (ma ?= mb)%positive;
    destruct (Z.compare_spec ea eb); destruct (Pos.compare_spec ma mb); simpl;
    (split; [try discriminate; intros _; repeat split; lia
            | intros (_ & _ & ?); try reflexivity; lia]).
Qed.

Lemma flt_false_key (a b : float) :
  isNaN a = false -> isNaN b = false ->
  flt a b = false <-> ~ lexlt (key a) (key b).
Proof.
  intros Ha Hb. split.
  - intros H Hlt. assert (flt a b = true) by (apply flt_key; auto). congruence.
  - intros H. destruct (flt a b) eqn:E; [|reflexivity].
    apply flt_key in E as (_ & _ & E). contradiction.
Qed.

Ltac lex_solve :=
  unfold lexlt in *;
  repeat match goal with
    | H : context [key ?a] |- _ =>
        let k := fresh "k" in
        set (k := key a) in *; clearbody k; destruct k as [[? ?] ?]
    | |- context [key ?a] =>
        let k := fresh "k" in
        set (k := key a) in *; clearbody k; destruct k as [[? ?] ?]
    end;
  simpl in *; lia.

Lemma lexlt_asym (x y : float) : lexlt (key x) (key y) -> ~ lexlt (key y) (key x).
Proof. intros H. lex_solve. Qed.

Lemma lexlt_irrefl (x : float) : ~ lexlt (key x) (key x).
Proof. lex_solve. Qed.

Lemma nlexlt_trans (x y z : float) :
  ~ lexlt (key x) (key y) -> ~ lexlt (key y) (key z) -> ~ lexlt (key x) (key z).
Proof. intros H1 H2. lex_solve. Qed.

Lemma nlexlt_lexlt_trans (x y z : float) :
  ~ lexlt (key y) (key x) -> lexlt (key y) (key z) -> lexlt (key x) (key z).
Proof. intros H1 H2. lex_solve. Qed.

Lemma lexlt_nlexlt_trans (x y z : float) :
  lexlt (key x) (key y) -> ~ lexlt (key z) (key y) -> lexlt (key x) (key z).
Proof. intros H1 H2. lex_solve. Qed.

(** [c <= g < iso] gives [c < iso], and [iso < g <= c] gives [iso < c]. *)
Lemma fle_flt_trans (c g iso : float) :
  isNaN c = false -> flt g c = false -> flt g iso = true -> flt c iso = true.
Proof.
  intros Hc Hgc Hgi. apply flt_key in Hgi as (Hg & Hi & Hlt).
  apply flt_key. repeat split; try assumption.
  apply (nlexlt_lexlt_trans c g iso); [|exact Hlt].
  now apply flt_false_key.
Qed.

Lemma flt_fle_trans (c g iso : float) :
  isNaN c = false -> flt c g = false -> flt iso g = true -> flt iso c = true.
Proof.
  intros Hc Hcg Hig. apply flt_key in Hig as (Hi & Hg & Hlt).
  apply flt_key. repeat split; try assumption.
  apply (lexlt_nlexlt_trans iso g c); [exact Hlt|].
  now apply flt_false_key.
Qed.

Lemma fmax_key (a b : float) :
  isNaN a = false -> isNaN b = false ->
  isNaN (fmax a b) = false /\
  ~ lexlt (key (fmax a b)) (key a) /\ ~ lexlt (key (fmax a b)) (key b).
Proof.
  intros Ha Hb. unfold fmax. destruct (flt a b) eqn:E.
  - apply flt_key in E as (_ & _ & E).
    repeat split; [assumption|now apply lexlt_asym|apply lexlt_irrefl].
  - apply flt_false_key in E; try assumption.
    repeat split; [assumption|apply lexlt_irrefl|assumption].
Qed.

Lemma fmin_key (a b : float) :
  isNaN a = false -> isNaN b = false ->
  isNaN (fmin a b) = false /\
  ~ lexlt (key a) (key (fmin a b)) /\ ~ lexlt (key b) (key (fmin a b)).
Proof.
  intros Ha Hb. unfold fmin. destruct (flt a b) eqn:E.
  - apply flt_key in E as (_ & _ & E).
    repeat split; [assumption|apply lexlt_irrefl|now apply lexlt_asym].
  - apply flt_false_key in E; try assumption.
    repeat split; [assumption|assumption|apply lexlt_irrefl].
Qed.

(** The fold of [max] is an upper bound, the fold of [min] a lower bound,
    of data without NaN. *)
Lemma fold_fmax_upper (rest : list float) (v : float) :
  Forall (fun x => isNaN x = false) (v :: rest) ->
  isNaN (fold_left fmax rest v) = false /\
  forall x, x ∈ v :: rest -> flt (fold_left fmax rest v) x = false.
Proof.
  revert v. induction rest as [|b rest IH]; intros v Hall;
    inversion Hall as [|? ? Hv Hrest]; subst.
  - simpl. split; [exact Hv|]. intros x Hx. apply list_elem_of_singleton in Hx as ->.
    apply flt_false_key; try assumption. apply lexlt_irrefl.
  - inversion Hrest as [|? ? Hb Hrest']; subst. cbn [fold_left].
    destruct (fmax_key v b Hv Hb) as (Hm & Hmv & Hmb).
    destruct (IH (fmax v b)) as [Hr Hup]; [constructor; assumption|].
    split; [exact Hr|]. intros x Hx.
    assert (Hmx : flt (fold_left fmax rest (fmax v b)) (fmax v b) = false)
      by (apply Hup, list_elem_of_here).
    apply flt_false_key in Hmx; try assumption.
    assert (Hnan : forall y, y ∈ v :: b :: rest -> isNaN y = false)
      by (now apply Forall_forall).
    rewrite !elem_of_cons in Hx. destruct Hx as [->|[->|Hx]].
    + apply flt_false_key; try assumption. eapply nlexlt_trans; eassumption.
    + apply flt_false_key; try assumption. eapply nlexlt_trans; eassumption.
    + apply Hup. now apply list_elem_of_further.
Qed.

Lemma fold_fmin_lower (rest : list float) (v : float) :
  Forall (fun x => isNaN x = false) (v :: rest) ->
  isNaN (fold_left fmin rest v) = false /\
  forall x, x ∈ v :: rest -> flt x (fold_left fmin rest v) = false.
Proof.
  revert v. induction rest as [|b rest IH]; intros v Hall;
    inversion Hall as [|? ? Hv Hrest]; subst.
  - simpl. split; [exact Hv|]. intros x Hx. apply list_elem_of_singleton in Hx as ->.
    apply flt_false_key; try assumption. apply lexlt_irrefl.
  - inversion Hrest as [|? ? Hb Hrest']; subst. cbn [fold_left].
    destruct (fmin_key v b Hv Hb) as (Hm & Hmv & Hmb).
    destruct (IH (fmin v b)) as [Hr Hlow]; [constructor; assumption|].
    split; [exact Hr|]. intros x Hx.
    assert (Hmx : flt (fmin v b) (fold_left fmin rest (fmin v b)) = false)
      by (apply Hlow, list_elem_of_here).
    apply flt_false_key in Hmx; try assumption.
    rewrite !elem_of_cons in Hx. destruct Hx as [->|[->|Hx]].
    + apply flt_false_key; try assumption. eapply nlexlt_trans; eassumption.
    + apply flt_false_key; try assumption. eapply nlexlt_trans; eassumption.
    + apply Hlow. now apply list_elem_of_further.
Qed.

(** ** The extremes of a corner range are corner values *)

Lemma fold_fmax_elem (rest : list float) (v : float) :
  fold_left fmax rest v ∈ v :: rest.
Proof.
  revert v. induction rest as [|b rest IH]; intros v; simpl.
  - apply list_elem_of_here.
  - specialize (IH (fmax v b)). unfold fmax in *.
    destruct (flt v b); rewrite !elem_of_cons in *; tauto.
Qed.

Lemma fold_fmin_elem (rest : list float) (v : float) :
  fold_left fmin rest v ∈ v :: rest.
Proof.
  revert v. induction rest as [|b rest IH]; intros v; simpl.
  - apply list_elem_of_here.
  - specialize (IH (fmin v b)). unfold fmin in *.
    destruct (flt v b); rewrite !elem_of_cons in *; tauto.
Qed.

Lemma cornerRange_elems (vs : list float) (lo hi : float) :
  cornerRange vs = Some (lo, hi) -> lo ∈ vs /\ hi ∈ vs.
Proof.
  destruct vs as [|v rest]; simpl; [discriminate|].
  intros [= <- <-]. split; [apply fold_fmin_elem | apply fold_fmax_elem].
Qed.

Lemma octantActive_above (iso : float) (o : Octant) :
  Forall (fun v => flt v iso = true) (vertexValue o) ->
  octantActive iso o = false.
Proof.
  intros H. unfold octantActive.
  destruct (cornerRange (vertexValue o)) as [[lo hi]|] eqn:E; [|reflexivity].
  apply cornerRange_elems in E as [_ Hhi].
  rewrite Forall_forall in H. rewrite (flt_not_fle _ _ (H _ Hhi)).
  apply andb_false_r.
Qed.

Lemma octantActive_below (iso : float) (o : Octant) :
  Forall (fun v => flt iso v = true) (vertexValue o) ->
  octantActive iso o = false.
Proof.
  intros H. unfold octantActive.
  destruct (cornerRange (vertexValue o)) as [[lo hi]|] eqn:E; [|reflexivity].
  apply cornerRange_elems in E as [Hlo _].
  rewrite Forall_forall in H. now rewrite (flt_not_fle _ _ (H _ Hlo)).
Qed.

(** ** The enumeration loop is a filter *)

Lemma pushIfActive_fold (iso : float) (l : list (nat * Octant))
    (acc : list VoxelRef) :
  fold_left (pushIfActive iso) l acc =
  acc ++ ((fun io : nat * Octant => N.of_nat (fst io)) <$>
          filter (fun io : nat * Octant => octantActive iso (snd io) = true) l).
Proof.
  revert acc. induction l as [|io l IH]; intros acc; simpl.
  - now rewrite app_nil_r.
  - rewrite IH, filter_cons. unfold pushIfActive.
    destruct (octantActive iso (snd io)) eqn:E.
    + rewrite decide_True by reflexivity. now rewrite <- app_assoc.
    + rewrite decide_False by discriminate. reflexivity.
Qed.

Lemma getActiveVoxels_activeRefs (self : TestOctant) (prev : list VoxelRef)
    (iso : float) :
  TestOctant_getActiveVoxels self prev iso = activeRefs self iso.
Proof. unfold TestOctant_getActiveVoxels. now rewrite pushIfActive_fold. Qed.

Lemma elem_of_activeRefs (self : TestOctant) (iso : float) (ref : VoxelRef) :
  ref ∈ activeRefs self iso <->
  exists o, octants self !! N.to_nat ref = Some o /\ octantActive iso o = true.
Proof.
  unfold activeRefs. rewrite list_elem_of_fmap. split.
  - intros ([i o] & -> & H). apply list_elem_of_filter in H as [Hact Hin].
    apply elem_of_lookup_imap in Hin as (j & o' & [= -> ->] & Hl).
    exists o'. simpl in *. now rewrite Nat2N.id.
  - intros (o & Hl & Hact). exists (N.to_nat ref, o). simpl. split.
    + now rewrite N2Nat.id.
    + apply list_elem_of_filter. split; [exact Hact|].
      apply elem_of_lookup_imap. eauto.
Qed.

Lemma fst_imap_pair {A} (l : list A) :
  fst <$> imap pair l = seq 0 (length l).
Proof.
  rewrite fmap_imap.
  etrans; [exact (imap_seq_0 l (fun i => i))|]. apply list_fmap_id.
Qed.

Lemma NoDup_activeRefs (self : TestOctant) (iso : float) :
  NoDup (activeRefs self iso).
Proof.
  unfold activeRefs.
  change (fun io : nat * Octant => N.of_nat (fst io)) with (N.of_nat ∘ (@fst nat Octant)).
  rewrite list_fmap_compose. apply NoDup_fmap_2; [apply _|].
  apply (sublist_NoDup _ (fst <$> imap pair (octants self))).
  - rewrite fst_imap_pair. apply NoDup_seq.
  - apply fmap_sublist, sublist_filter.
Qed.

(** ** Lookups by reference *)

Lemma getVoxel_of_lookup (self : TestOctant) (ref : VoxelRef) (o : Octant) :
  octants self !! N.to_nat ref = Some o ->
  TestOctant_getVoxel self ref = Ok (mk_Voxel (bounds o) (vertexValue o)) /\
  TestOctant_getVoxelBounds self ref = Ok (bounds o).
Proof.
  intros H. unfold TestOctant_getVoxel, TestOctant_getVoxelBounds.
  apply read_Ok in H. now rewrite H.
Qed.

Lemma active_ref_resolves (self : TestOctant) (prev : list VoxelRef)
    (iso : float) (ref : VoxelRef) :
  ref ∈ TestOctant_getActiveVoxels self prev iso ->
  exists v, TestOctant_getVoxel self ref = Ok v /\
            TestOctant_getVoxelBounds self ref = Ok (voxel_bounds v).
Proof.
  rewrite getActiveVoxels_activeRefs, elem_of_activeRefs.
  intros (o & Hl & _). destruct (getVoxel_of_lookup _ _ _ Hl) as [Hv Hb].
  eexists. split; [exact Hv | exact Hb].
Qed.

(** ** Calls that do not initialise leave the source alone *)

Lemma call_const (self self' : TestOctant) (c : SourceCall) (r : Reply) :
  isInitData c = false -> call self c = Ok (self', r) -> self' = self.
Proof.
  destruct c as [n pb wb vb|prev iso|ref|ref]; simpl; intros Hc H;
    try discriminate.
  - now inversion H.
  - destruct (TestOctant_getVoxelBounds self ref); simpl in H;
      [now inversion H | discriminate].
  - destruct (TestOctant_getVoxel self ref); simpl in H;
      [now inversion H | discriminate].
Qed.

Lemma calls_const (cs : list SourceCall) (self self' : TestOctant)
    (rs : list Reply) :
  Forall (fun c => isInitData c = false) cs ->
  calls self cs = Ok (self', rs) -> self' = self.
Proof.
  revert self rs. induction cs as [|c cs IH]; intros self rs Hcs H.
  - simpl in H. now inversion H.
  - inversion Hcs as [|? ? Hc Hrest]; subst. simpl in H.
    destruct (call self c) as [[s1 r1]|e] eqn:E1; simpl in H; [|discriminate].
    destruct (calls s1 cs) as [[s2 r2]|e] eqn:E2; simpl in H; [|discriminate].
    inversion H; subst.
    apply call_const in E1; [subst s1 | exact Hc].
    now apply (IH self r2).
Qed.

(** ** The global extremes of data without NaN *)

(** On data without NaN, to be strictly above every stored corner value is
    to be strictly above their maximum, and likewise below their minimum. *)
Lemma aboveGlobalMax_iff_globalMax (self : TestOctant) (g iso : float) :
  noNaN self -> globalMax self = Some g ->
  aboveGlobalMax self iso <-> flt g iso = true.
Proof.
  unfold noNaN, globalMax, aboveGlobalMax.
  destruct (cornerValues self) as [|v rest]; [discriminate|].
  intros Hnan [= <-]. rewrite Forall_forall. split.
  - intros H. apply H, fold_fmax_elem.
  - intros Hg x Hx. destruct (fold_fmax_upper rest v Hnan) as [_ Hup].
    rewrite Forall_forall in Hnan.
    apply (fle_flt_trans x (fold_left fmax rest v) iso); auto.
Qed.

Lemma belowGlobalMin_iff_globalMin (self : TestOctant) (g iso : float) :
  noNaN self -> globalMin self = Some g ->
  belowGlobalMin self iso <-> flt iso g = true.
Proof.
  unfold noNaN, globalMin, belowGlobalMin.
  destruct (cornerValues self) as [|v rest]; [discriminate|].
  intros Hnan [= <-]. rewrite Forall_forall. split.
  - intros H. apply H, fold_fmin_elem.
  - intros Hg x Hx. destruct (fold_fmin_lower rest v Hnan) as [_ Hlow].
    rewrite Forall_forall in Hnan.
    apply (flt_fle_trans x (fold_left fmin rest v) iso); auto.
Qed.

(** ** The model on the sample data *)

Example sample_words :
  bits_to_float <$> [Sample.w0; Sample.w0_5; Sample.w0_7; Sample.w1; Sample.w2]
  = [f0; f0_5; f0_7; f1; Sample.f2].
Proof. reflexivity. Qed.

(** [(int)] truncates towards zero: 2.5f and -2.5f give 2 and -2. *)
Example float_to_int_truncates :
  float_to_int (S754_finite false 10485760 (-22)) = Ok 2 /\
  float_to_int (S754_finite true 10485760 (-22)) = Ok (-2) /\
  float_to_int (bits_to_float Sample.w0_7) = Ok 0 /\
  float_to_int (S754_finite false 8388608 8) = Crash FloatToIntOverflow.
Proof. repeat split; reflexivity. Qed.

Example sample_extremes :
  globalMin Sample.source = Some f0 /\ globalMax Sample.source = Some f1.
Proof. split; reflexivity. Qed.

Example sample_first_commit :
  commit Sample.arrays Sample.fresh = Ok Sample.committed.
Proof. vm_compute. reflexivity. Qed.

Example sample_enumeration :
  getActiveVoxels (SrcTestOctant Sample.source) [] f0_7 = [0%N] /\
  getActiveVoxels (SrcTestOctant Sample.source) [] f0_5 = [0%N; 1%N] /\
  getActiveVoxels (SrcTestOctant Sample.source) [] Sample.fminus1 = [].
Proof. repeat split; reflexivity. Qed.

(** A second initialisation does change what a reference resolves to. *)
Example reinitialised_source_differs :
  exists self' rs v v',
    calls Sample.source
      [CallGetVoxel 0%N;
       CallInitData 1 [vec3f_of f0] [f0_5] Sample.corners1;
       CallGetVoxel 0%N] = Ok (self', rs) /\
    rs = [ReplyVoxel v; ReplyVoid; ReplyVoxel v'] /\ v <> v'.
Proof.
  eexists _, _, _, _. split; [vm_compute; reflexivity|].
  split; [reflexivity|]. discriminate.
Qed.

(** ** Anatomy of a commit *)

Ltac bind_red := cbn [mbind result_mbind result_bind].
Ltac bind_red_in H := cbn [mbind result_mbind result_bind] in H.

Ltac bind_step H :=
  match type of H with
  | (?m ≫= _) = Ok _ =>
      let a := fresh "a" in
      let E := fresh "E" in
      destruct m as [a|] eqn:E; bind_red_in H; [|discriminate H]
  end.

Lemma deref_Ok {A} (p : option A) (a : A) : deref p = Ok a -> p = Some a.
Proof. destruct p; simpl; congruence. Qed.

Lemma as_floats_head (ws : list Z) (count : float) :
  read (as_floats ws) 0 = Ok count ->
  exists w0 wrest, ws = w0 :: wrest /\ count = bits_to_float w0 /\
                   drop 1 (as_floats ws) = as_floats wrest.
Proof.
  destruct ws as [|w0 wrest]; [discriminate|].
  unfold read, as_floats. rewrite fmap_cons. cbn [lookup list_lookup drop].
  intros [= <-]. eauto.
Qed.

(** A commit on a geometry that already has its source. *)
Lemma commit_body_committed (init : Impi -> result Impi)
    (params : gmap string Param) (self : Impi) (src : VoxelSource) :
  voxelSource self = Some src ->
  commit_body init params self =
  Ok (mk_Impi (Some src) (getParam1f params "isoValue" f0_7)
              (activeVoxelRefs self)).
Proof.
  intros H. unfold commit_body. rewrite H. bind_red.
  cbn [voxelSource activeVoxelRefs]. now rewrite H.
Qed.

(** What a first commit that returns has gone through. *)
Lemma commit_body_first_inv (init : Impi -> result Impi)
    (params : gmap string Param) (self self' : Impi) :
  voxelSource self = None ->
  commit_body init params self = Ok self' ->
  exists self0 testOct0 wd pd vd w0 wrest octNum testOct,
    init self = Ok self0 /\
    dynamic_pointer_cast_TestOctant (voxelSource self0) = Some testOct0 /\
    getParamData params "octantWidthArray" = Some wd /\
    getParamData params "octantPointArray" = Some pd /\
    getParamData params "octantValueArray" = Some vd /\
    data wd = w0 :: wrest /\
    float_to_int (bits_to_float w0) = Ok octNum /\
    TestOctant_initData octNum (as_vec3f (data pd)) (as_floats wrest)
      (as_floats (data vd)) testOct0 = Ok testOct /\
    self' = mk_Impi (Some (SrcTestOctant testOct))
                    (getParam1f params "isoValue" f0_7)
                    (activeVoxelRefs self0).
Proof.
  intros Hnone H. unfold commit_body in H. rewrite Hnone in H.
  bind_step H. rename a into s1, E into Hchain.
  injection H as <-.
  bind_step Hchain. rename a into self0, E into Hinit.
  bind_step Hchain. rename a into wd, E into Hwd. apply deref_Ok in Hwd.
  bind_step Hchain. rename a into count, E into Hcount.
  apply as_floats_head in Hcount as (w0 & wrest & Hdata & -> & Hdrop).
  bind_step Hchain. rename a into octNum, E into HoctNum.
  bind_step Hchain. rename a into pd, E into Hpd. apply deref_Ok in Hpd.
  bind_step Hchain. rename a into vd, E into Hvd. apply deref_Ok in Hvd.
  bind_step Hchain. rename a into testOct0, E into Hcast. apply deref_Ok in Hcast.
  bind_step Hchain. rename a into testOct, E into Hdata'.
  injection Hchain as <-. cbn [voxelSource activeVoxelRefs].
  rewrite Hdrop in Hdata'.
  exists self0, testOct0, wd, pd, vd, w0, wrest, octNum, testOct.
  repeat split; assumption.
Qed.

(** The same, run forwards: every step of a first commit, given the three
    arrays and a readable count. *)
Lemma commit_body_first_run (init : Impi -> result Impi)
    (params : gmap string Param) (self self0 : Impi) (wd pd vd : Data)
    (w0 : Z) (wrest : list Z) (octNum : Z) :
  voxelSource self = None ->
  init self = Ok self0 ->
  getParamData params "octantWidthArray" = Some wd ->
  getParamData params "octantPointArray" = Some pd ->
  getParamData params "octantValueArray" = Some vd ->
  data wd = w0 :: wrest ->
  float_to_int (bits_to_float w0) = Ok octNum ->
  commit_body init params self =
  (testOct0 ← deref (dynamic_pointer_cast_TestOctant (voxelSource self0));
   testOct ← TestOctant_initData octNum (as_vec3f (data pd)) (as_floats wrest)
               (as_floats (data vd)) testOct0;
   Ok (mk_Impi (Some (SrcTestOctant testOct))
               (getParam1f params "isoValue" f0_7) (activeVoxelRefs self0))).
Proof.
  intros Hnone Hinit Hwd Hpd Hvd Hdata Hnum. unfold commit_body.
  rewrite Hnone, Hinit. bind_red. rewrite Hwd. cbn [deref]. bind_red.
  rewrite Hdata.
  change (read (as_floats (w0 :: wrest)) 0) with (Ok (bits_to_float w0)).
  change (drop 1 (as_floats (w0 :: wrest))) with (as_floats wrest).
  bind_red. rewrite Hnum. bind_red. rewrite Hpd. cbn [deref]. bind_red.
  rewrite Hvd. cbn [deref]. bind_red.
  destruct (deref (dynamic_pointer_cast_TestOctant (voxelSource self0)))
    as [t0|e]; bind_red; [|reflexivity].
  destruct (TestOctant_initData _ _ _ _ t0) as [t|e]; reflexivity.
Qed.

Lemma commit_Ok_has_source (params : gmap string Param) (self self' : Impi) :
  commit params self = Ok self' -> exists src, voxelSource self' = Some src.
Proof.
  intros H. unfold commit in H.
  destruct (voxelSource self) as [src|] eqn:Hsrc.
  - rewrite (commit_body_committed _ _ _ _ Hsrc) in H. injection H as <-. eauto.
  - apply (commit_body_first_inv _ _ _ _ Hsrc) in H
      as (s0 & t0 & wd & pd & vd & w0 & wrest & n & t & _ & _ & _ & _ & _ & _ & _ & _ & ->).
    eauto.
Qed.

Lemma getParam1f_supplied (params : gmap string Param) (name : string)
    (f dflt : float) :
  params !! name = Some (ParamFloat f) -> getParam1f params name dflt = f.
Proof. intros H. unfold getParam1f. now rewrite H. Qed.

Lemma getParam1f_default (params : gmap string Param) (name : string)
    (dflt : float) :
  params !! name = None -> getParam1f params name dflt = dflt.
Proof. intros H. unfold getParam1f. now rewrite H. Qed.

Lemma commit_Ok_isoValue (params : gmap string Param) (self self' : Impi) :
  commit params self = Ok self' ->
  isoValue self' = getParam1f params "isoValue" f0_7.
Proof.
  intros H. unfold commit in H.
  destruct (voxelSource self) as [src|] eqn:Hsrc.
  - rewrite (commit_body_committed _ _ _ _ Hsrc) in H. now injection H as <-.
  - apply (commit_body_first_inv _ _ _ _ Hsrc) in H
      as (s0 & t0 & wd & pd & vd & w0 & wrest & n & t & _ & _ & _ & _ & _ & _ & _ & _ & ->).
    reflexivity.
Qed.

(** ** Octant records follow the arrays entry by entry *)

Lemma parseOctantEntry_inv (pointBuff : list vec3f)
    (widthBuff valueBuff : list float) (i : nat) (o : Octant) :
  parseOctantEntry pointBuff widthBuff valueBuff i = Ok o ->
  pointBuff !! i = Some (lower (bounds o)) /\
  widthBuff !! i = Some (width o) /\
  vertexValue o = take 8 (drop (8 * i) valueBuff) /\
  length (vertexValue o) = 8%nat.
Proof.
  unfold parseOctantEntry. intros H.
  bind_step H. rename a into p, E into Hp. apply read_Ok in Hp.
  bind_step H. rename a into w, E into Hw. apply read_Ok in Hw.
  bind_step H. rename a into vs, E into Hvs.
  injection H as <-. cbn [bounds lower width vertexValue].
  unfold read8 in Hvs. case_decide as Hlen; [|discriminate].
  injection Hvs as <-. repeat split; try assumption.
  rewrite length_take. apply Nat.min_l. exact Hlen.
Qed.

Lemma parseOctantEntries_inv (pointBuff : list vec3f)
    (widthBuff valueBuff : list float) (idxs : list nat) (os : list Octant) :
  parseOctantEntries pointBuff widthBuff valueBuff idxs = Ok os ->
  length os = length idxs /\
  forall k i o, idxs !! k = Some i -> os !! k = Some o ->
    parseOctantEntry pointBuff widthBuff valueBuff i = Ok o.
Proof.
  revert os. induction idxs as [|j idxs IH]; intros os H; cbn [parseOctantEntries] in H.
  - injection H as <-. split; [reflexivity|]. intros k i o Hk. discriminate.
  - bind_step H. rename a into o1, E into Ho1.
    bind_step H. rename a into os1, E into Hos1.
    injection H as <-. destruct (IH os1 eq_refl) as [Hlen Hall].
    split; [simpl; now rewrite Hlen|].
    intros [|k] i o Hi Ho; simpl in Hi, Ho.
    + congruence.
    + eauto.
Qed.

Lemma initData_entries (octNum : Z) (pointBuff : list vec3f)
    (widthBuff valueBuff : list float) (self self' : TestOctant) :
  TestOctant_initData octNum pointBuff widthBuff valueBuff self = Ok self' ->
  length (octants self') = Z.to_nat octNum /\
  forall i o, octants self' !! i = Some o ->
    pointBuff !! i = Some (lower (bounds o)) /\
    widthBuff !! i = Some (width o) /\
    vertexValue o = take 8 (drop (8 * i) valueBuff) /\
    length (vertexValue o) = 8%nat.
Proof.
  unfold TestOctant_initData. intros H.
  bind_step H. rename a into os, E into Hos. injection H as <-.
  apply parseOctantEntries_inv in Hos as [Hlen Hall].
  rewrite length_seq in Hlen. split; [exact Hlen|].
  intros i o Ho. cbn [octants] in Ho.
  apply parseOctantEntry_inv, (Hall i i o); [|exact Ho].
  apply lookup_seq. split; [reflexivity|].
  apply lookup_lt_Some in Ho. lia.
Qed.

(** ** The source each preprocessor branch creates *)

Lemma commit_body_ext (init1 init2 : Impi -> result Impi)
    (params : gmap string Param) (self : Impi) :
  init1 self = init2 self ->
  commit_body init1 params self = commit_body init2 params self.
Proof. intros H. unfold commit_body. now rewrite H. Qed.

Lemma init_cond_TestOctant (ext : Externals) (c : Conditions) (self : Impi) :
  selectsTestOctant c = true ->
  initVoxelSourceAndIsoValue_cond ext c self = initVoxelSourceAndIsoValue self.
Proof.
  unfold selectsTestOctant, initVoxelSourceAndIsoValue_cond.
  destruct (cond0 c), (cond1 c); simpl; try discriminate. reflexivity.
Qed.

Lemma init_cond_other (ext : Externals) (c : Conditions) (self self0 : Impi) :
  selectsTestOctant c = false ->
  initVoxelSourceAndIsoValue_cond ext c self = Ok self0 ->
  exists o, voxelSource self0 = Some (SrcOther o).
Proof.
  unfold selectsTestOctant, initVoxelSourceAndIsoValue_cond, withSource.
  destruct (cond0 c), (cond1 c); simpl; try discriminate; intros _;
    repeat match goal with
      | |- context [if ?b then _ else _] => destruct b
      | |- context [match loadRAW ?e ?f ?d with _ => _ end] =>
          destruct (loadRAW e f d)
      end;
    intros H; try discriminate H; injection H as <-; simpl; eauto.
Qed.

(** ** Words, views and entries *)

Lemma word_decode (s : bool) (E M : Z) :
  0 <= E <= 255 -> 0 <= M < 2 ^ 23 ->
  Z.testbit (Z.b2z s * 2 ^ 31 + E * 2 ^ 23 + M) 31 = s /\
  Z.land (Z.shiftr (Z.b2z s * 2 ^ 31 + E * 2 ^ 23 + M) 23) 255 = E /\
  Z.land (Z.b2z s * 2 ^ 31 + E * 2 ^ 23 + M) (2 ^ 23 - 1) = M.
Proof.
  intros HE HM. set (w := Z.b2z s * 2 ^ 31 + E * 2 ^ 23 + M).
  assert (Hs : 0 <= Z.b2z s <= 1) by (destruct s; simpl; lia).
  change 255 with (Z.ones 8). change (2 ^ 23 - 1) with (Z.ones 23).
  rewrite !Z.land_ones by lia. rewrite Z.shiftr_div_pow2 by lia.
  assert (H31 : w / 2 ^ 31 = Z.b2z s).
  { symmetry. apply (Z.div_unique w (2 ^ 31) (Z.b2z s) (E * 2 ^ 23 + M)); unfold w; lia. }
  assert (H23 : w / 2 ^ 23 = Z.b2z s * 256 + E).
  { symmetry. apply (Z.div_unique w (2 ^ 23) (Z.b2z s * 256 + E) M); unfold w; lia. }
  repeat split.
  - rewrite Z.testbit_odd, Z.shiftr_div_pow2, H31 by lia. now destruct s.
  - rewrite H23. symmetry.
    apply (Z.mod_unique (Z.b2z s * 256 + E) (2 ^ 8) (Z.b2z s) E); lia.
  - symmetry. apply (Z.mod_unique w (2 ^ 23) (Z.b2z s * 256 + E) M); unfold w; lia.
Qed.

Lemma bits_to_float_normal (s : bool) (E M : Z) :
  1 <= E <= 254 -> 0 <= M < 2 ^ 23 ->
  bits_to_float (Z.b2z s * 2 ^ 31 + E * 2 ^ 23 + M) =
  S754_finite s (Z.to_pos (2 ^ 23 + M)) (E - 150).
Proof.
  intros HE HM. unfold bits_to_float.
  destruct (word_decode s E M) as (-> & -> & ->); [lia|lia|].
  destruct (Z.eqb_spec E 0); [lia|]. destruct (Z.eqb_spec E 255); [lia|].
  now rewrite (Z.add_comm M).
Qed.

Lemma float_to_int_normal (s : bool) (E M : Z) :
  1 <= E <= 157 -> 0 <= M < 2 ^ 23 ->
  float_to_int (S754_finite s (Z.to_pos (2 ^ 23 + M)) (E - 150)) =
  Ok (truncatedCount s E M).
Proof.
  intros HE HM. unfold float_to_int, truncatedCount. rewrite Z2Pos.id by lia.
  assert (Hmag : Z.shiftl (2 ^ 23 + M) (E - 150) =
                 if 150 <=? E then (2 ^ 23 + M) * 2 ^ (E - 150)
                 else (2 ^ 23 + M) / 2 ^ (150 - E)).
  { destruct (Z.leb_spec 150 E).
    - apply Z.shiftl_mul_pow2. lia.
    - rewrite Z.shiftl_div_pow2 by lia. f_equal. f_equal. lia. }
  rewrite Hmag.
  assert (Hrange : 0 <= (if 150 <=? E then (2 ^ 23 + M) * 2 ^ (E - 150)
                         else (2 ^ 23 + M) / 2 ^ (150 - E)) < 2 ^ 31).
  { destruct (Z.leb_spec 150 E).
    - assert (0 < 2 ^ (E - 150) <= 2 ^ 7)
        by (split; [apply Z.pow_pos_nonneg; lia | apply Z.pow_le_mono_r; lia]).
      nia.
    - assert (0 < 2 ^ (150 - E)) by (apply Z.pow_pos_nonneg; lia).
      split; [apply Z.div_pos; lia|].
      apply Z.div_lt_upper_bound; [lia|]. nia. }
  set (mag := if 150 <=? E then _ else _) in *. clearbody mag.
  destruct s.
  - destruct (Z.leb_spec (- 2 ^ 31) (- mag)); [|lia].
    destruct (Z.ltb_spec (- mag) (2 ^ 31)); [|lia]. simpl. f_equal; lia.
  - destruct (Z.leb_spec (- 2 ^ 31) mag); [|lia].
    destruct (Z.ltb_spec mag (2 ^ 31)); [|lia]. simpl. f_equal; lia.
Qed.

Lemma as_vec3f_lookup (ws : list Z) (i : nat) (v : vec3f) :
  as_vec3f ws !! i = Some v <->
  exists x y z,
    ws !! (3 * i)%nat = Some x /\ ws !! (3 * i + 1)%nat = Some y /\
    ws !! (3 * i + 2)%nat = Some z /\
    v = mk_vec3f (bits_to_float x) (bits_to_float y) (bits_to_float z).
Proof.
  revert ws. induction i as [|i IH]; intros ws.
  - destruct ws as [|x [|y [|z rest]]]; simpl; split;
      try discriminate; try (intros (? & ? & ? & ? & ? & ? & ?); discriminate).
    + intros [= <-]. eauto 10.
    + intros (x' & y' & z' & [= <-] & [= <-] & [= <-] & ->). reflexivity.
  - replace (3 * S i)%nat with (S (S (S (3 * i)))) by lia.
    destruct ws as [|x [|y [|z rest]]];
      try (simpl; split;
           [discriminate | intros (? & ? & ? & ? & ? & ? & ?); discriminate]).
    change (as_vec3f (x :: y :: z :: rest) !! S i) with (as_vec3f rest !! i).
    rewrite IH. reflexivity.
Qed.

Lemma parseOctantEntry_shape (pointBuff : list vec3f)
    (widthBuff valueBuff : list float) (i : nat) (o : Octant) :
  parseOctantEntry pointBuff widthBuff valueBuff i = Ok o ->
  exists p w,
    pointBuff !! i = Some p /\ widthBuff !! i = Some w /\
    o = mk_Octant (mk_box3f p (vec3f_add p (vec3f_of w))) w
                  (take 8 (drop (8 * i) valueBuff)) /\
    length (take 8 (drop (8 * i) valueBuff)) = 8%nat.
Proof.
  unfold parseOctantEntry. intros H.
  bind_step H. rename a into p, E into Hp. apply read_Ok in Hp.
  bind_step H. rename a into w, E into Hw. apply read_Ok in Hw.
  bind_step H. rename a into vs, E into Hvs.
  injection H as <-. unfold read8 in Hvs. case_decide as Hlen; [|discriminate].
  injection Hvs as <-. exists p, w. repeat split; try assumption.
  rewrite length_take. apply Nat.min_l. exact Hlen.
Qed.

Lemma initData_lookup (octNum : Z) (pointBuff : list vec3f)
    (widthBuff valueBuff : list float) (self0 self : TestOctant) (i : nat) :
  TestOctant_initData octNum pointBuff widthBuff valueBuff self0 = Ok self ->
  (i < Z.to_nat octNum)%nat ->
  exists p w,
    pointBuff !! i = Some p /\ widthBuff !! i = Some w /\
    octants self !! i =
      Some (mk_Octant (mk_box3f p (vec3f_add p (vec3f_of w))) w
                      (take 8 (drop (8 * i) valueBuff))) /\
    length (take 8 (drop (8 * i) valueBuff)) = 8%nat.
Proof.
  unfold TestOctant_initData. intros H Hi.
  bind_step H. rename a into os, E into Hos. injection H as <-.
  apply parseOctantEntries_inv in Hos as [Hlen Hall].
  rewrite length_seq in Hlen. cbn [octants].
  destruct (lookup_lt_is_Some_2 os i) as [o Ho]; [lia|].
  assert (Hseq : seq 0 (Z.to_nat octNum) !! i = Some i)
    by (apply lookup_seq; split; [reflexivity|lia]).
  destruct (parseOctantEntry_shape _ _ _ _ _ (Hall i i o Hseq Ho))
    as (p & w & Hp & Hw & -> & Hl).
  exists p, w. auto.
Qed.

Lemma calls_app (cs1 cs2 : list SourceCall) (self s1 s2 : TestOctant)
    (r1 r2 : list Reply) :
  calls self cs1 = Ok (s1, r1) -> calls s1 cs2 = Ok (s2, r2) ->
  calls self (cs1 ++ cs2) = Ok (s2, r1 ++ r2).
Proof.
  revert self r1. induction cs1 as [|c cs1 IH]; intros self r1 H1 H2.
  - simpl in H1. injection H1 as <- <-. exact H2.
  - cbn [calls app] in *.
    destruct (call self c) as [[sa ra]|e]; bind_red_in H1; [|discriminate].
    destruct (calls sa cs1) as [[sb rb]|e] eqn:E; bind_red_in H1; [|discriminate].
    injection H1 as <- <-. bind_red.
    rewrite (IH sa rb E H2). reflexivity.
Qed.

(** * The claims *)

(** The octant source's getActiveVoxels returns the empty sequence
    whenever the iso-value is strictly above every stored corner value or
    strictly below every stored corner value; the call returns. For data
    without NaN these are the iso-values above the maximum and below the
    minimum, by [aboveGlobalMax_iff_globalMax] and
    [belowGlobalMin_iff_globalMin]. *)
Theorem getActiveVoxels_empty_outside_range
    (self : TestOctant) (activeVoxels : list VoxelRef) (iso : float) :
  aboveGlobalMax self iso \/ belowGlobalMin self iso ->
  getActiveVoxels (SrcTestOctant self) activeVoxels iso = [].
Proof.
  intros H. simpl. rewrite getActiveVoxels_activeRefs.
  apply elem_of_nil_inv. intros ref Href.
  apply elem_of_activeRefs in Href as (o & Hl & Hact).
  assert (Hin : o ∈ octants self) by (eapply list_elem_of_lookup_2; exact Hl).
  assert (Hsub : forall P, Forall P (cornerValues self) -> Forall P (vertexValue o)).
  { intros P HP. rewrite Forall_forall in *. intros v Hv. apply HP.
    unfold cornerValues. apply list_elem_of_bind. eauto. }
  destruct H as [H|H]; apply Hsub in H.
  - rewrite (octantActive_above _ _ H) in Hact. discriminate.
  - rewrite (octantActive_below _ _ H) in Hact. discriminate.
Qed.

Lemma getActiveVoxels_empty_outside_range_witness :
  aboveGlobalMax Sample.source Sample.f2 /\
  belowGlobalMin Sample.source Sample.fminus1 /\
  getActiveVoxels (SrcTestOctant Sample.source) [7%N] Sample.f2 = [] /\
  getActiveVoxels (SrcTestOctant Sample.source) [7%N] Sample.fminus1 = [].
Proof.
  assert (Ha : aboveGlobalMax Sample.source Sample.f2)
    by (unfold aboveGlobalMax; simpl; repeat constructor).
  assert (Hb : belowGlobalMin Sample.source Sample.fminus1)
    by (unfold belowGlobalMin; simpl; repeat constructor).
  split; [exact Ha|]. split; [exact Hb|]. split.
  - apply (getActiveVoxels_empty_outside_range Sample.source [7%N] Sample.f2).
    left. exact Ha.
  - apply (getActiveVoxels_empty_outside_range Sample.source [7%N] Sample.fminus1).
    right. exact Hb.
Defined.

(** C2. When one of the required octant arrays (octantWidthArray,
    octantPointArray, octantValueArray) is absent at the first commit, the
    commit does not return: it ends in a fault, and for an absent width
    array that fault is the dereference of the null data pointer. *)
Theorem commit_fails_without_octant_array
    (params : gmap string Param) (self : Impi) :
  voxelSource self = None ->
  getParamData params "octantWidthArray" = None \/
  getParamData params "octantPointArray" = None \/
  getParamData params "octantValueArray" = None ->
  (exists f, commit params self = Crash f) /\
  (getParamData params "octantWidthArray" = None ->
   commit params self = Crash NullPointerDereference).
Proof.
  intros Hnone Habsent. split.
  - destruct (commit params self) as [self'|f] eqn:E; [|eauto].
    apply (commit_body_first_inv _ _ _ _ Hnone) in E
      as (s0 & t0 & wd & pd & vd & w0 & wrest & n & t & _ & _ & Hwd & Hpd & Hvd & _).
    destruct Habsent as [H|[H|H]]; congruence.
  - intros Hw. unfold commit, commit_body. rewrite Hnone.
    unfold initVoxelSourceAndIsoValue. bind_red. now rewrite Hw.
Qed.

Lemma commit_fails_without_octant_array_witness :
  (exists f, commit Sample.noWidth Sample.fresh = Crash f) /\
  (getParamData Sample.noWidth "octantWidthArray" = None ->
   commit Sample.noWidth Sample.fresh = Crash NullPointerDereference).
Proof.
  apply (commit_fails_without_octant_array Sample.noWidth Sample.fresh).
  - reflexivity.
  - left. vm_compute. reflexivity.
Defined.

(** C3. Once a commit has built the voxel source, every later commit
    returns, leaves the voxelSource field (and the list of active
    references) as it was and only sets isoValue from the parameters. *)
Theorem commit_never_rebuilds_source
    (params0 : gmap string Param) (self0 self1 : Impi)
    (later : list (gmap string Param)) :
  commit params0 self0 = Ok self1 ->
  exists self',
    commits later self1 = Ok self' /\
    voxelSource self' = voxelSource self1 /\
    activeVoxelRefs self' = activeVoxelRefs self1 /\
    isoValue self' =
      fold_left (fun _ p => getParam1f p "isoValue" f0_7) later (isoValue self1).
Proof.
  intros H. apply commit_Ok_has_source in H as [src Hsrc]. clear params0 self0.
  revert self1 Hsrc. induction later as [|p later IH]; intros self1 Hsrc.
  - exists self1. simpl. auto.
  - cbn [commits fold_left]. unfold commit at 1.
    rewrite (commit_body_committed _ _ _ _ Hsrc). bind_red.
    destruct (IH (mk_Impi (Some src) (getParam1f p "isoValue" f0_7)
                          (activeVoxelRefs self1)) eq_refl)
      as (self' & Hrun & Hs & Ha & Hi).
    exists self'. cbn [voxelSource activeVoxelRefs isoValue] in *.
    rewrite Hsrc. auto.
Qed.

Lemma commit_never_rebuilds_source_witness :
  exists self',
    commits [Sample.arrays; Sample.noWidth] Sample.committed = Ok self' /\
    voxelSource self' = voxelSource Sample.committed /\
    activeVoxelRefs self' = activeVoxelRefs Sample.committed /\
    isoValue self' =
      fold_left (fun _ p => getParam1f p "isoValue" f0_7)
                [Sample.arrays; Sample.noWidth] (isoValue Sample.committed).
Proof.
  apply (commit_never_rebuilds_source Sample.arrays Sample.fresh
           Sample.committed [Sample.arrays; Sample.noWidth]).
  vm_compute. reflexivity.
Defined.

(** C4. Each finalize hands the intersection builder a fresh list: exactly
    the references of the octants active at the current iso-value, each
    once, whatever the list held before the call. *)
Theorem finalize_hands_fresh_active_list (self : Impi) (o : TestOctant) :
  voxelSource self = Some (SrcTestOctant o) ->
  exists self' h,
    finalize self = Ok (self', h) /\
    h_voxelRefs h = activeRefs o (isoValue self) /\
    (forall ref, ref ∈ h_voxelRefs h <->
       exists oct, octants o !! N.to_nat ref = Some oct /\
                   octantActive (isoValue self) oct = true) /\
    NoDup (h_voxelRefs h) /\
    h_numVoxelRefs h = length (h_voxelRefs h) /\
    h_isoValue h = isoValue self /\
    activeVoxelRefs self' = h_voxelRefs h /\
    (forall prev,
       finalize (mk_Impi (voxelSource self) (isoValue self) prev) = Ok (self', h)).
Proof.
  intros Hsrc. unfold finalize. rewrite Hsrc. simpl.
  rewrite getActiveVoxels_activeRefs.
  eexists _, _. split; [reflexivity|]. simpl.
  repeat split; try apply elem_of_activeRefs; try apply NoDup_activeRefs.
  intros prev. now rewrite getActiveVoxels_activeRefs.
Qed.

Lemma finalize_hands_fresh_active_list_witness :
  exists self' h,
    finalize Sample.stale = Ok (self', h) /\
    h_voxelRefs h = activeRefs Sample.source f0_7 /\
    (forall ref, ref ∈ h_voxelRefs h <->
       exists oct, octants Sample.source !! N.to_nat ref = Some oct /\
                   octantActive f0_7 oct = true) /\
    NoDup (h_voxelRefs h) /\
    h_numVoxelRefs h = length (h_voxelRefs h) /\
    h_isoValue h = f0_7 /\
    activeVoxelRefs self' = h_voxelRefs h /\
    (forall prev,
       finalize (mk_Impi (voxelSource Sample.stale) f0_7 prev) = Ok (self', h)).
Proof.
  apply (finalize_hands_fresh_active_list Sample.stale Sample.source).
  reflexivity.
Defined.

(** C5. On the first commit the three octant arrays are read in parallel.
    The octant count is the first word of the width array read as a float
    and truncated to int: for the word with sign s, exponent field E and
    fraction field M it is the integer part of (2^23 + M) * 2^(E - 150),
    negated when s is set. The widths are the words of that array from the
    second on, the values the words of the value buffer, each read as a
    float; point i is made of the words 3i, 3i+1 and 3i+2 of the point
    buffer. These four go together to initData of the new octant source. *)
Theorem commit_parses_octant_arrays
    (params : gmap string Param) (self : Impi) (wd pd vd : Data)
    (s : bool) (E M : Z) (wrest : list Z) :
  voxelSource self = None ->
  getParamData params "octantWidthArray" = Some wd ->
  getParamData params "octantPointArray" = Some pd ->
  getParamData params "octantValueArray" = Some vd ->
  data wd = (Z.b2z s * 2 ^ 31 + E * 2 ^ 23 + M) :: wrest ->
  1 <= E <= 157 -> 0 <= M < 2 ^ 23 ->
  commit params self =
    (testOct ← TestOctant_initData (truncatedCount s E M) (as_vec3f (data pd))
                 (as_floats wrest) (as_floats (data vd)) TestOctant_new;
     Ok (mk_Impi (Some (SrcTestOctant testOct))
                 (getParam1f params "isoValue" f0_7) (activeVoxelRefs self))) /\
  (forall i, as_floats wrest !! i = bits_to_float <$> data wd !! S i) /\
  (forall i, as_floats (data vd) !! i = bits_to_float <$> data vd !! i) /\
  (forall i v, as_vec3f (data pd) !! i = Some v <->
     exists x y z,
       data pd !! (3 * i)%nat = Some x /\ data pd !! (3 * i + 1)%nat = Some y /\
       data pd !! (3 * i + 2)%nat = Some z /\
       v = mk_vec3f (bits_to_float x) (bits_to_float y) (bits_to_float z)) /\
  (forall s' E' M', 1 <= E' <= 254 -> 0 <= M' < 2 ^ 23 ->
     bits_to_float (Z.b2z s' * 2 ^ 31 + E' * 2 ^ 23 + M') =
     S754_finite s' (Z.to_pos (2 ^ 23 + M')) (E' - 150)).
Proof.
  intros Hnone Hwd Hpd Hvd Hdata HE HM.
  assert (Hnum : float_to_int (bits_to_float (Z.b2z s * 2 ^ 31 + E * 2 ^ 23 + M))
                 = Ok (truncatedCount s E M)).
  { rewrite bits_to_float_normal by lia. now apply float_to_int_normal. }
  assert (Hrun := commit_body_first_run initVoxelSourceAndIsoValue params self
                    _ wd pd vd _ wrest _ Hnone eq_refl Hwd Hpd Hvd Hdata Hnum).
  cbn [voxelSource activeVoxelRefs dynamic_pointer_cast_TestOctant deref] in Hrun.
  bind_red_in Hrun. fold (commit params self) in Hrun.
  split; [exact Hrun|]. split; [|split; [|split]].
  - intros i. rewrite Hdata. unfold as_floats. now rewrite list_lookup_fmap.
  - intros i. unfold as_floats. now rewrite list_lookup_fmap.
  - intros i v. apply as_vec3f_lookup.
  - intros s' E' M'. apply bits_to_float_normal.
Qed.

Lemma commit_parses_octant_arrays_witness :
  truncatedCount false 128 0 = 2 /\
  commit Sample.params Sample.fresh =
    Ok (mk_Impi (Some (SrcTestOctant Sample.source)) f0_5 []).
Proof.
  split; [reflexivity|].
  assert (Hw : getParamData Sample.params "octantWidthArray"
               = Some Sample.widthArray) by (vm_compute; reflexivity).
  assert (Hp : getParamData Sample.params "octantPointArray"
               = Some Sample.pointArray) by (vm_compute; reflexivity).
  assert (Hv : getParamData Sample.params "octantValueArray"
               = Some Sample.valueArray) by (vm_compute; reflexivity).
  destruct (commit_parses_octant_arrays Sample.params Sample.fresh
              Sample.widthArray Sample.pointArray Sample.valueArray
              false 128 0 [Sample.w1; Sample.w0_5]
              eq_refl Hw Hp Hv eq_refl ltac:(lia) ltac:(lia)) as [Hrun _].
  rewrite Hrun. vm_compute. reflexivity.
Defined.

(** C6. For every reference that getActiveVoxels returns on an initialised
    octant source, getVoxelBounds returns the bounds field of the voxel that
    getVoxel returns, directly and through the two callbacks. *)
Theorem getVoxelBounds_is_getVoxel_bounds (self : Impi) (o : TestOctant)
    (activeVoxels : list VoxelRef) (iso : float) (ref : VoxelRef) :
  voxelSource self = Some (SrcTestOctant o) ->
  ref ∈ getActiveVoxels (SrcTestOctant o) activeVoxels iso ->
  exists v,
    getVoxel (SrcTestOctant o) ref = Ok v /\
    getVoxelBounds (SrcTestOctant o) ref = Ok (voxel_bounds v) /\
    externC_getVoxel self ref = Ok v /\
    externC_getVoxelBounds self ref = Ok (voxel_bounds v).
Proof.
  intros Hsrc Href. simpl in Href.
  destruct (active_ref_resolves _ _ _ _ Href) as (v & Hv & Hb).
  exists v. unfold externC_getVoxel, externC_getVoxelBounds.
  rewrite Hsrc. simpl. auto.
Qed.

Lemma getVoxelBounds_is_getVoxel_bounds_witness :
  0%N ∈ getActiveVoxels (SrcTestOctant Sample.source) [] f0_7 /\
  exists v,
    getVoxel (SrcTestOctant Sample.source) 0%N = Ok v /\
    getVoxelBounds (SrcTestOctant Sample.source) 0%N = Ok (voxel_bounds v) /\
    externC_getVoxel Sample.committed 0%N = Ok v /\
    externC_getVoxelBounds Sample.committed 0%N = Ok (voxel_bounds v).
Proof.
  assert (H : 0%N ∈ getActiveVoxels (SrcTestOctant Sample.source) [] f0_7).
  { vm_compute. apply list_elem_of_here. }
  split; [exact H|].
  apply (getVoxelBounds_is_getVoxel_bounds Sample.committed Sample.source
           [] f0_7 0%N eq_refl H).
Defined.

(** C7. On an octant source initialised from the three arrays, getVoxel on
    the reference of octant i returns the voxel whose bounds span from
    point i over width i and whose 8 corner values are the values 8i to
    8i+7; a second getVoxel on that reference, after any calls other than
    an initialisation, returns the identical voxel, and the source is the
    same afterwards. *)
Theorem getVoxel_stable (octNum : Z) (pointBuff : list vec3f)
    (widthBuff valueBuff : list float) (self0 self self' : TestOctant)
    (i : nat) (between : list SourceCall) (replies : list Reply) :
  TestOctant_initData octNum pointBuff widthBuff valueBuff self0 = Ok self ->
  (i < Z.to_nat octNum)%nat ->
  Forall (fun c => isInitData c = false) between ->
  calls self between = Ok (self', replies) ->
  exists p w,
    pointBuff !! i = Some p /\ widthBuff !! i = Some w /\
    length (take 8 (drop (8 * i) valueBuff)) = 8%nat /\
    self' = self /\
    calls self (CallGetVoxel (N.of_nat i) :: between ++ [CallGetVoxel (N.of_nat i)])
    = Ok (self,
          ReplyVoxel (mk_Voxel (mk_box3f p (vec3f_add p (vec3f_of w)))
                               (take 8 (drop (8 * i) valueBuff)))
          :: replies ++
          [ReplyVoxel (mk_Voxel (mk_box3f p (vec3f_add p (vec3f_of w)))
                                (take 8 (drop (8 * i) valueBuff)))]).
Proof.
  intros Hinit Hi Hbetween Hrun.
  destruct (initData_lookup _ _ _ _ _ _ i Hinit Hi) as (p & w & Hp & Hw & Ho & Hlen).
  exists p, w. split; [exact Hp|]. split; [exact Hw|]. split; [exact Hlen|].
  pose proof (calls_const _ _ _ _ Hbetween Hrun) as ->. split; [reflexivity|].
  assert (Hv : TestOctant_getVoxel self (N.of_nat i) =
               Ok (mk_Voxel (mk_box3f p (vec3f_add p (vec3f_of w)))
                            (take 8 (drop (8 * i) valueBuff)))).
  { unfold TestOctant_getVoxel, read. rewrite Nat2N.id, Ho. reflexivity. }
  assert (Hlast : calls self [CallGetVoxel (N.of_nat i)] =
                  Ok (self, [ReplyVoxel (mk_Voxel (mk_box3f p (vec3f_add p (vec3f_of w)))
                                                  (take 8 (drop (8 * i) valueBuff)))])).
  { cbn [calls call]. rewrite Hv. reflexivity. }
  cbn [calls call]. rewrite Hv. bind_red.
  rewrite (calls_app _ _ _ _ _ _ _ Hrun Hlast). reflexivity.
Qed.

Lemma getVoxel_stable_witness :
  calls Sample.source
    [CallGetVoxel 1%N; CallGetVoxelBounds 0%N; CallGetActiveVoxels [] f0_7;
     CallGetVoxel 0%N; CallGetVoxel 1%N]
  = Ok (Sample.source,
        [ReplyVoxel (mk_Voxel (bounds Sample.octant1) Sample.corners1);
         ReplyBounds (bounds Sample.octant0); ReplyVoxelRefs [0%N];
         ReplyVoxel (mk_Voxel (bounds Sample.octant0) Sample.corners0);
         ReplyVoxel (mk_Voxel (bounds Sample.octant1) Sample.corners1)]).
Proof.
  destruct (getVoxel_stable 2 [vec3f_of f0; vec3f_of f0] [f1; f0_5]
              (Sample.corners0 ++ Sample.corners1)
              TestOctant_new Sample.source Sample.source 1
              [CallGetVoxelBounds 0%N; CallGetActiveVoxels [] f0_7; CallGetVoxel 0%N]
              [ReplyBounds (bounds Sample.octant0); ReplyVoxelRefs [0%N];
               ReplyVoxel (mk_Voxel (bounds Sample.octant0) Sample.corners0)])
    as (p & w & Hp & Hw & _ & _ & Hcalls).
  - vm_compute. reflexivity.
  - vm_compute. lia.
  - repeat constructor.
  - reflexivity.
  - injection Hp as <-. injection Hw as <-. exact Hcalls.
Defined.

(** C8. Every commit that returns, the first one as well as a later one,
    leaves isoValue at the value of the isoValue parameter when that is
    supplied and at the default 0.7 when it is not; a commit on a geometry
    that has its source always returns. *)
Theorem commit_sets_isoValue (params : gmap string Param) (self : Impi) :
  (voxelSource self <> None -> exists self', commit params self = Ok self') /\
  (forall self', commit params self = Ok self' ->
     (forall f, params !! "isoValue" = Some (ParamFloat f) -> isoValue self' = f) /\
     (params !! "isoValue" = None -> isoValue self' = f0_7)).
Proof.
  split.
  - destruct (voxelSource self) as [src|] eqn:Hsrc; [|congruence]. intros _.
    unfold commit. rewrite (commit_body_committed _ _ _ _ Hsrc). eauto.
  - intros self' H. apply commit_Ok_isoValue in H. rewrite H. split.
    + intros f Hf. now apply getParam1f_supplied.
    + intros Hf. now apply getParam1f_default.
Qed.

Lemma commit_sets_isoValue_witness :
  exists self',
    commit Sample.params Sample.fresh = Ok self' /\
    isoValue self' = f0_5 /\
    (exists self'', commit Sample.arrays self' = Ok self'' /\
                    isoValue self'' = f0_7).
Proof.
  destruct (commit Sample.params Sample.fresh) as [self'|e] eqn:E;
    [|vm_compute in E; discriminate E].
  exists self'. split; [reflexivity|].
  destruct (commit_sets_isoValue Sample.params Sample.fresh) as [_ Hset].
  destruct (Hset self' E) as [Hsupplied _].
  split; [apply Hsupplied; vm_compute; reflexivity|].
  destruct (commit_sets_isoValue Sample.arrays self') as [Hret Hset'].
  destruct Hret as [self'' E''].
  { destruct (commit_Ok_has_source _ _ _ E) as [src ->]. discriminate. }
  exists self''. split; [exact E''|].
  destruct (Hset' self'' E'') as [_ Hdefault].
  apply Hdefault. vm_compute. reflexivity.
Defined.

(** C9. The bounds that the scene-graph node of the geometry reports are
    the unit cube, lower corner (0,0,0) and upper corner (1,1,1), whatever
    the node holds. *)
Theorem ImpiSGNode_bounds_unit_cube (self : ImpiSGNode) :
  ImpiSGNode_bounds self =
  mk_box3f (mk_vec3f f0 f0 f0) (mk_vec3f f1 f1 f1).
Proof. reflexivity. Qed.

(** C10. The octant branch of the first commit depends on the branch that
    is compiled. Under the conditions of the source (and under any that
    select the same branch) the source created is a TestOctant, the cast
    yields that object, and with the three arrays present and a readable
    count the commit goes on to call initData on it and returns the
    geometry holding what initData returns. Under any conditions that
    select another branch the cast yields null, so the first commit never
    returns, and with the three arrays present and a readable count its
    fault is the call of initData on the null pointer. *)
Theorem octant_branch_needs_TestOctant (ext : Externals) (c : Conditions)
    (params : gmap string Param) (self : Impi) :
  voxelSource self = None ->
  (selectsTestOctant compiled = true /\
   commit_cond ext compiled params self = commit params self) /\
  (selectsTestOctant c = true ->
   (exists self0,
      initVoxelSourceAndIsoValue_cond ext c self = Ok self0 /\
      dynamic_pointer_cast_TestOctant (voxelSource self0) = Some TestOctant_new /\
      commit_cond ext c params self = commit params self) /\
   (forall wd pd vd w0 wrest octNum,
      getParamData params "octantWidthArray" = Some wd ->
      getParamData params "octantPointArray" = Some pd ->
      getParamData params "octantValueArray" = Some vd ->
      data wd = w0 :: wrest ->
      float_to_int (bits_to_float w0) = Ok octNum ->
      commit_cond ext c params self =
        (testOct ← TestOctant_initData octNum (as_vec3f (data pd))
                     (as_floats wrest) (as_floats (data vd)) TestOctant_new;
         Ok (mk_Impi (Some (SrcTestOctant testOct))
                     (getParam1f params "isoValue" f0_7)
                     (activeVoxelRefs self))) /\
      (forall testOct,
         TestOctant_initData octNum (as_vec3f (data pd)) (as_floats wrest)
           (as_floats (data vd)) TestOctant_new = Ok testOct ->
         commit_cond ext c params self =
           Ok (mk_Impi (Some (SrcTestOctant testOct))
                       (getParam1f params "isoValue" f0_7)
                       (activeVoxelRefs self))))) /\
  (selectsTestOctant c = false ->
   (forall self0, initVoxelSourceAndIsoValue_cond ext c self = Ok self0 ->
      dynamic_pointer_cast_TestOctant (voxelSource self0) = None) /\
   (exists f, commit_cond ext c params self = Crash f) /\
   (forall self0 wd pd vd w0 wrest octNum,
      initVoxelSourceAndIsoValue_cond ext c self = Ok self0 ->
      getParamData params "octantWidthArray" = Some wd ->
      getParamData params "octantPointArray" = Some pd ->
      getParamData params "octantValueArray" = Some vd ->
      data wd = w0 :: wrest ->
      float_to_int (bits_to_float w0) = Ok octNum ->
      commit_cond ext c params self = Crash NullPointerDereference)).
Proof.
  intros Hnone. split; [split; reflexivity|]. split.
  - intros Hc. split.
    + exists (mk_Impi (Some (SrcTestOctant TestOctant_new)) f0_7
                      (activeVoxelRefs self)).
      split; [now rewrite init_cond_TestOctant|]. split; [reflexivity|].
      unfold commit_cond, commit. apply commit_body_ext.
      now apply init_cond_TestOctant.
    + intros wd pd vd w0 wrest octNum Hwd Hpd Hvd Hdata Hnum.
      assert (Hrun := commit_body_first_run
                (initVoxelSourceAndIsoValue_cond ext c) params self
                _ wd pd vd w0 wrest octNum Hnone
                (init_cond_TestOctant ext c self Hc) Hwd Hpd Hvd Hdata Hnum).
      cbn [voxelSource activeVoxelRefs dynamic_pointer_cast_TestOctant deref] in Hrun.
      bind_red_in Hrun. fold (commit_cond ext c params self) in Hrun.
      split; [exact Hrun|]. intros testOct Hinit. rewrite Hrun, Hinit. reflexivity.
  - intros Hc.
    assert (Hcast : forall self0,
              initVoxelSourceAndIsoValue_cond ext c self = Ok self0 ->
              dynamic_pointer_cast_TestOctant (voxelSource self0) = None).
    { intros self0 H0. destruct (init_cond_other _ _ _ _ Hc H0) as [o ->].
      reflexivity. }
    split; [exact Hcast|]. split.
    + destruct (commit_cond ext c params self) as [self'|f] eqn:E; [|eauto].
      apply (commit_body_first_inv _ _ _ _ Hnone) in E
        as (s0 & t0 & wd & pd & vd & w0 & wrest & n & t & Hinit & Hsome & _).
      rewrite (Hcast _ Hinit) in Hsome. discriminate.
    + intros self0 wd pd vd w0 wrest octNum Hinit Hwd Hpd Hvd Hdata Hnum.
      unfold commit_cond.
      rewrite (commit_body_first_run _ params self self0 wd pd vd w0 wrest
                 octNum Hnone Hinit Hwd Hpd Hvd Hdata Hnum).
      now rewrite (Hcast _ Hinit).
Qed.

Lemma octant_branch_needs_TestOctant_witness :
  commit_cond Sample.externals compiled Sample.params Sample.fresh
    = Ok (mk_Impi (Some (SrcTestOctant Sample.source)) f0_5 []) /\
  commit_cond Sample.externals (mk_Conditions true true false false false)
              Sample.params Sample.fresh = Crash NullPointerDereference.
Proof.
  assert (Hw : getParamData Sample.params "octantWidthArray"
               = Some Sample.widthArray) by (vm_compute; reflexivity).
  assert (Hp : getParamData Sample.params "octantPointArray"
               = Some Sample.pointArray) by (vm_compute; reflexivity).
  assert (Hv : getParamData Sample.params "octantValueArray"
               = Some Sample.valueArray) by (vm_compute; reflexivity).
  split.
  - destruct (octant_branch_needs_TestOctant Sample.externals compiled
                Sample.params Sample.fresh eq_refl) as (_ & Hsame & _).
    destruct (Hsame eq_refl) as [_ Hrun].
    destruct (Hrun Sample.widthArray Sample.pointArray Sample.valueArray
                Sample.w2 [Sample.w1; Sample.w0_5] 2 Hw Hp Hv eq_refl eq_refl)
      as [_ Hok].
    rewrite (Hok Sample.source); [|vm_compute; reflexivity].
    vm_compute. reflexivity.
  - destruct (octant_branch_needs_TestOctant Sample.externals
                (mk_Conditions true true false false false)
                Sample.params Sample.fresh eq_refl) as (_ & _ & Hother).
    destruct (Hother eq_refl) as (_ & _ & Hnull).
    apply (Hnull (mk_Impi (Some (SrcOther Sample.other)) f20 [])
                 Sample.widthArray Sample.pointArray Sample.valueArray
                 Sample.w2 [Sample.w1; Sample.w0_5] 2 eq_refl Hw Hp Hv
                 eq_refl eq_refl).
Defined.

(** * Further properties of the code *)

(** ** Commit, finalize and the callbacks together *)

Lemma finalize_with_source (self : Impi) (src : VoxelSource) :
  voxelSource self = Some src ->
  finalize self =
  Ok (mk_Impi (Some src) (isoValue self)
              (getActiveVoxels src (activeVoxelRefs self) (isoValue self)),
      mk_Handoff (getActiveVoxels src (activeVoxelRefs self) (isoValue self))
                 (length (getActiveVoxels src (activeVoxelRefs self) (isoValue self)))
                 (isoValue self)).
Proof. intros H. unfold finalize. rewrite H. reflexivity. Qed.

Lemma commit_Ok_activeVoxelRefs (params : gmap string Param) (self self' : Impi) :
  commit params self = Ok self' -> activeVoxelRefs self' = activeVoxelRefs self.
Proof.
  intros H. unfold commit in H.
  destruct (voxelSource self) as [src|] eqn:Hsrc.
  - rewrite (commit_body_committed _ _ _ _ Hsrc) in H. now injection H as <-.
  - apply (commit_body_first_inv _ _ _ _ Hsrc) in H
      as (s0 & t0 & wd & pd & vd & w0 & wrest & n & t & Hinit & _ & _ & _ & _ & _ & _ & _ & ->).
    unfold initVoxelSourceAndIsoValue in Hinit. now injection Hinit as <-.
Qed.

Lemma externC_same_source (self self' : Impi) (voxelRef : VoxelRef) :
  voxelSource self' = voxelSource self ->
  externC_getVoxel self' voxelRef = externC_getVoxel self voxelRef /\
  externC_getVoxelBounds self' voxelRef = externC_getVoxelBounds self voxelRef.
Proof.
  intros H. unfold externC_getVoxel, externC_getVoxelBounds. now rewrite H.
Qed.

Lemma perform_keeps_source (self self' : Impi) (src : VoxelSource)
    (c : ImpiCall) :
  voxelSource self = Some src -> perform self c = Ok self' ->
  voxelSource self' = Some src.
Proof.
  intros Hsrc H. destruct c as [p| |ref|ref]; cbn [perform] in H.
  - unfold commit in H. rewrite (commit_body_committed _ _ _ _ Hsrc) in H.
    now injection H as <-.
  - rewrite (finalize_with_source _ _ Hsrc) in H. now injection H as <-.
  - bind_step H. now injection H as <-.
  - bind_step H. now injection H as <-.
Qed.

Lemma perform_returns (self : Impi) (src : VoxelSource) (c : ImpiCall) :
  voxelSource self = Some src -> isCallback c = false ->
  exists self', perform self c = Ok self'.
Proof.
  intros Hsrc Hc. destruct c as [p| |ref|ref]; try discriminate; cbn [perform].
  - unfold commit. rewrite (commit_body_committed _ _ _ _ Hsrc). eauto.
  - rewrite (finalize_with_source _ _ Hsrc). bind_red. eauto.
Qed.

(** X1. A commit that returns makes the next finalize return: it hands
    over the iso-value just committed (the parameter, or 0.7) and the list
    the source leaves in the vector that the geometry held before the
    commit, called with that iso-value; source and iso-value stay. *)
Theorem commit_then_finalize (params : gmap string Param) (self self' : Impi) :
  commit params self = Ok self' ->
  exists src self'' h,
    voxelSource self' = Some src /\
    finalize self' = Ok (self'', h) /\
    h_isoValue h = getParam1f params "isoValue" f0_7 /\
    h_voxelRefs h =
      getActiveVoxels src (activeVoxelRefs self)
                      (getParam1f params "isoValue" f0_7) /\
    h_numVoxelRefs h = length (h_voxelRefs h) /\
    activeVoxelRefs self'' = h_voxelRefs h /\
    voxelSource self'' = Some src /\
    isoValue self'' = getParam1f params "isoValue" f0_7.
Proof.
  intros H. destruct (commit_Ok_has_source _ _ _ H) as [src Hsrc].
  pose proof (commit_Ok_isoValue _ _ _ H) as Hiso.
  pose proof (commit_Ok_activeVoxelRefs _ _ _ H) as Hrefs.
  eexists src, _, _. split; [exact Hsrc|].
  split; [apply (finalize_with_source _ _ Hsrc)|].
  cbn [h_isoValue h_voxelRefs h_numVoxelRefs activeVoxelRefs voxelSource isoValue].
  rewrite Hiso, Hrefs. repeat split.
Qed.

Lemma commit_then_finalize_witness :
  exists src self'' h,
    voxelSource Sample.committed = Some src /\
    finalize Sample.committed = Ok (self'', h) /\
    h_isoValue h = getParam1f Sample.arrays "isoValue" f0_7 /\
    h_voxelRefs h =
      getActiveVoxels src (activeVoxelRefs Sample.fresh)
                      (getParam1f Sample.arrays "isoValue" f0_7) /\
    h_numVoxelRefs h = length (h_voxelRefs h) /\
    activeVoxelRefs self'' = h_voxelRefs h /\
    voxelSource self'' = Some src /\
    isoValue self'' = getParam1f Sample.arrays "isoValue" f0_7.
Proof.
  apply (commit_then_finalize Sample.arrays Sample.fresh Sample.committed).
  vm_compute. reflexivity.
Defined.

(** X2. Once the geometry has a source, no run of commits, finalizes and
    callbacks that returns replaces or drops it, so every reference keeps
    resolving to the same bounds and voxel; and a run of commits and
    finalizes alone always returns. *)
Theorem source_fixed_under_calls (self : Impi) (src : VoxelSource)
    (cs : list ImpiCall) :
  voxelSource self = Some src ->
  (forall self', performAll self cs = Ok self' ->
     voxelSource self' = Some src /\
     forall voxelRef,
       externC_getVoxel self' voxelRef = externC_getVoxel self voxelRef /\
       externC_getVoxelBounds self' voxelRef =
         externC_getVoxelBounds self voxelRef) /\
  (Forall (fun c => isCallback c = false) cs ->
   exists self', performAll self cs = Ok self').
Proof.
  intros Hsrc. split.
  - intros self' H.
    assert (Hkeep : voxelSource self' = Some src).
    { revert self Hsrc H. induction cs as [|c cs IH]; intros self Hsrc H.
      - simpl in H. now injection H as <-.
      - cbn [performAll] in H. bind_step H.
        apply (IH a); [|exact H]. eapply perform_keeps_source; eassumption. }
    split; [exact Hkeep|]. intros ref. apply externC_same_source. congruence.
  - revert self Hsrc. induction cs as [|c cs IH]; intros self Hsrc Hall.
    + simpl. eauto.
    + inversion Hall as [|? ? Hc Hrest]; subst. cbn [performAll].
      destruct (perform_returns _ _ _ Hsrc Hc) as [s1 H1]. rewrite H1. bind_red.
      apply IH; [|exact Hrest]. eapply perform_keeps_source; eassumption.
Qed.

Lemma source_fixed_under_calls_witness :
  performAll Sample.committed
    [DoFinalize; DoGetVoxel 0%N; DoCommit Sample.params; DoGetVoxelBounds 0%N;
     DoFinalize]
    = Ok (mk_Impi (Some (SrcTestOctant Sample.source)) f0_5 [0%N; 1%N]) /\
  (voxelSource (mk_Impi (Some (SrcTestOctant Sample.source)) f0_5 [0%N; 1%N])
     = Some (SrcTestOctant Sample.source) /\
   forall voxelRef,
     externC_getVoxel
       (mk_Impi (Some (SrcTestOctant Sample.source)) f0_5 [0%N; 1%N]) voxelRef
       = externC_getVoxel Sample.committed voxelRef /\
     externC_getVoxelBounds
       (mk_Impi (Some (SrcTestOctant Sample.source)) f0_5 [0%N; 1%N]) voxelRef
       = externC_getVoxelBounds Sample.committed voxelRef) /\
  exists self',
    performAll Sample.committed
      [DoFinalize; DoCommit Sample.params; DoFinalize; DoCommit Sample.arrays]
      = Ok self'.
Proof.
  assert (Hrun : performAll Sample.committed
            [DoFinalize; DoGetVoxel 0%N; DoCommit Sample.params;
             DoGetVoxelBounds 0%N; DoFinalize]
            = Ok (mk_Impi (Some (SrcTestOctant Sample.source)) f0_5 [0%N; 1%N]))
    by (vm_compute; reflexivity).
  split; [exact Hrun|]. split.
  - destruct (source_fixed_under_calls Sample.committed
                (SrcTestOctant Sample.source)
                [DoFinalize; DoGetVoxel 0%N; DoCommit Sample.params;
                 DoGetVoxelBounds 0%N; DoFinalize] eq_refl) as [Hkeep _].
    exact (Hkeep _ Hrun).
  - destruct (source_fixed_under_calls Sample.committed
                (SrcTestOctant Sample.source)
                [DoFinalize; DoCommit Sample.params; DoFinalize;
                 DoCommit Sample.arrays] eq_refl) as [_ Hreturns].
    apply Hreturns. repeat constructor.
Defined.

(** X3. On a geometry without a source, finalize and both callbacks
    dereference the null pointer, so a run of calls that returns is empty
    or starts with a commit. *)
Theorem calls_before_commit_fault (self : Impi) :
  voxelSource self = None ->
  finalize self = Crash NullPointerDereference /\
  (forall voxelRef,
     externC_getVoxelBounds self voxelRef = Crash NullPointerDereference /\
     externC_getVoxel self voxelRef = Crash NullPointerDereference) /\
  (forall c cs self', performAll self (c :: cs) = Ok self' ->
     exists params, c = DoCommit params).
Proof.
  intros Hnone.
  assert (Hf : finalize self = Crash NullPointerDereference)
    by (unfold finalize; now rewrite Hnone).
  assert (Hb : forall ref,
            externC_getVoxelBounds self ref = Crash NullPointerDereference)
    by (intros ref; unfold externC_getVoxelBounds; now rewrite Hnone).
  assert (Hv : forall ref,
            externC_getVoxel self ref = Crash NullPointerDereference)
    by (intros ref; unfold externC_getVoxel; now rewrite Hnone).
  split; [exact Hf|]. split; [auto|].
  intros c cs self' H. cbn [performAll] in H. bind_step H.
  destruct c as [p| |ref|ref]; cbn [perform] in E.
  - eauto.
  - rewrite Hf in E. discriminate E.
  - rewrite Hb in E. discriminate E.
  - rewrite Hv in E. discriminate E.
Qed.

Lemma calls_before_commit_fault_witness :
  finalize Sample.fresh = Crash NullPointerDereference /\
  (forall voxelRef,
     externC_getVoxelBounds Sample.fresh voxelRef = Crash NullPointerDereference /\
     externC_getVoxel Sample.fresh voxelRef = Crash NullPointerDereference) /\
  (forall c cs self', performAll Sample.fresh (c :: cs) = Ok self' ->
     exists params, c = DoCommit params).
Proof.
  apply (calls_before_commit_fault Sample.fresh). reflexivity.
Defined.

(** X4. Once the geometry has a source, a commit reads nothing but the
    isoValue parameter: two parameter sets that agree on it give the same
    commit, whatever octant arrays they hold or lack. *)
Theorem later_commit_reads_only_isoValue
    (params1 params2 : gmap string Param) (self : Impi) :
  voxelSource self <> None ->
  getParam1f params1 "isoValue" f0_7 = getParam1f params2 "isoValue" f0_7 ->
  commit params1 self = commit params2 self.
Proof.
  intros Hsrc Hiso. destruct (voxelSource self) as [src|] eqn:E; [|congruence].
  unfold commit. rewrite !(commit_body_committed _ _ _ _ E). now rewrite Hiso.
Qed.

Lemma later_commit_reads_only_isoValue_witness :
  commit Sample.params Sample.committed = commit Sample.noWidth Sample.committed.
Proof.
  apply (later_commit_reads_only_isoValue Sample.params Sample.noWidth
           Sample.committed).
  - discriminate.
  - vm_compute. reflexivity.
Defined.

(** X5. Commit is idempotent: committing the same parameters again on the
    geometry a commit returned gives that geometry back. *)
Theorem commit_idempotent (params : gmap string Param) (self self' : Impi) :
  commit params self = Ok self' -> commit params self' = Ok self'.
Proof.
  intros H. destruct (commit_Ok_has_source _ _ _ H) as [src Hsrc].
  pose proof (commit_Ok_isoValue _ _ _ H) as Hiso.
  unfold commit. rewrite (commit_body_committed _ _ _ _ Hsrc).
  rewrite <- Hiso, <- Hsrc. now destruct self'.
Qed.

Lemma commit_idempotent_witness :
  commit Sample.arrays Sample.committed = Ok Sample.committed.
Proof.
  apply (commit_idempotent Sample.arrays Sample.fresh Sample.committed).
  vm_compute. reflexivity.
Defined.

(** X6. A commit never recomputes the list of active references: after a
    finalize and a commit, the geometry still holds the list handed over
    by that finalize, next to the newly committed iso-value. *)
Theorem commit_keeps_active_list (params : gmap string Param)
    (self self1 self2 : Impi) (h : Handoff) :
  finalize self = Ok (self1, h) ->
  commit params self1 = Ok self2 ->
  activeVoxelRefs self2 = h_voxelRefs h /\
  isoValue self2 = getParam1f params "isoValue" f0_7 /\
  voxelSource self2 = voxelSource self.
Proof.
  intros Hf Hc. unfold finalize in Hf. bind_step Hf. apply deref_Ok in E.
  injection Hf as <- <-.
  rewrite (commit_Ok_activeVoxelRefs _ _ _ Hc), (commit_Ok_isoValue _ _ _ Hc).
  split; [reflexivity|]. split; [reflexivity|].
  unfold commit in Hc. cbn [voxelSource] in *.
  rewrite (commit_body_committed _ _ _ a) in Hc; [|now rewrite E].
  injection Hc as <-. now rewrite E.
Qed.

Lemma commit_keeps_active_list_witness :
  activeVoxelRefs (mk_Impi (Some (SrcTestOctant Sample.source)) f0_5 [0%N])
    = [0%N] /\
  isoValue (mk_Impi (Some (SrcTestOctant Sample.source)) f0_5 [0%N])
    = getParam1f Sample.params "isoValue" f0_7 /\
  voxelSource (mk_Impi (Some (SrcTestOctant Sample.source)) f0_5 [0%N])
    = voxelSource Sample.stale.
Proof.
  apply (commit_keeps_active_list Sample.params Sample.stale
           (mk_Impi (Some (SrcTestOctant Sample.source)) f0_7 [0%N])
           (mk_Impi (Some (SrcTestOctant Sample.source)) f0_5 [0%N])
           (mk_Handoff [0%N] 1 f0_7)).
  - reflexivity.
  - vm_compute. reflexivity.
Defined.

(** X7. On a first commit whose width array is there with a count that
    converts to int, an absent point array makes the commit dereference
    the null pointer, and so does an absent value array when the point
    array is there; initData is not reached. *)
Theorem first_commit_fault_order (params : gmap string Param) (self : Impi)
    (wd : Data) (w0 : Z) (wrest : list Z) (octNum : Z) :
  voxelSource self = None ->
  getParamData params "octantWidthArray" = Some wd ->
  data wd = w0 :: wrest ->
  float_to_int (bits_to_float w0) = Ok octNum ->
  (getParamData params "octantPointArray" = None ->
   commit params self = Crash NullPointerDereference) /\
  (forall pd, getParamData params "octantPointArray" = Some pd ->
     getParamData params "octantValueArray" = None ->
     commit params self = Crash NullPointerDereference).
Proof.
  intros Hnone Hw Hd Hn. unfold commit, commit_body. rewrite Hnone.
  unfold initVoxelSourceAndIsoValue. bind_red.
  rewrite Hw. cbn [deref]. bind_red. rewrite Hd.
  change (read (as_floats (w0 :: wrest)) 0) with (Ok (bits_to_float w0)).
  bind_red. rewrite Hn. bind_red. split.
  - intros Hp. now rewrite Hp.
  - intros pd Hp Hv. rewrite Hp. cbn [deref]. bind_red. now rewrite Hv.
Qed.

Lemma first_commit_fault_order_witness :
  commit (delete "octantPointArray" Sample.params) Sample.fresh
    = Crash NullPointerDereference /\
  commit (delete "octantValueArray" Sample.params) Sample.fresh
    = Crash NullPointerDereference.
Proof.
  assert (Hw1 : getParamData (delete "octantPointArray" Sample.params)
                  "octantWidthArray" = Some Sample.widthArray)
    by (vm_compute; reflexivity).
  assert (Hw2 : getParamData (delete "octantValueArray" Sample.params)
                  "octantWidthArray" = Some Sample.widthArray)
    by (vm_compute; reflexivity).
  split.
  - destruct (first_commit_fault_order
                (delete "octantPointArray" Sample.params) Sample.fresh
                Sample.widthArray Sample.w2 [Sample.w1; Sample.w0_5] 2
                eq_refl Hw1 eq_refl eq_refl) as [Hpoint _].
    apply Hpoint. vm_compute. reflexivity.
  - destruct (first_commit_fault_order
                (delete "octantValueArray" Sample.params) Sample.fresh
                Sample.widthArray Sample.w2 [Sample.w1; Sample.w0_5] 2
                eq_refl Hw2 eq_refl eq_refl) as [_ Hvalue].
    apply (Hvalue Sample.pointArray); vm_compute; reflexivity.
Defined.

(** ** The count read through a float pointer *)

Lemma float_to_int_small (s : bool) (m : positive) (e : Z) :
  e < 0 -> Z.pos m < 2 ^ (- e) ->
  float_to_int (S754_finite s m e) = Ok 0.
Proof.
  intros He Hm. unfold float_to_int.
  assert (Hmag : Z.shiftl (Z.pos m) e = 0).
  { replace e with (- (- e)) by lia. rewrite Z.shiftl_opp_r.
    rewrite Z.shiftr_div_pow2 by lia. apply Z.div_small. lia. }
  rewrite Hmag. now destruct s.
Qed.

Lemma word_fields (w : Z) :
  0 <= w < 1065353216 ->
  0 <= Z.land (Z.shiftr w 23) 255 <= 126 /\
  0 <= Z.land w (2 ^ 23 - 1) < 2 ^ 23.
Proof.
  intros Hw.
  change 255 with (Z.ones 8). change (2 ^ 23 - 1) with (Z.ones 23).
  rewrite !Z.land_ones by lia. rewrite Z.shiftr_div_pow2 by lia.
  assert (0 <= w / 2 ^ 23 <= 126).
  { split; [apply Z.div_pos; lia|].
    assert (w / 2 ^ 23 < 127); [|lia].
    apply Z.div_lt_upper_bound; lia. }
  rewrite (Z.mod_small (w / 2 ^ 23)) by lia.
  split; [lia|]. apply Z.mod_pos_bound. lia.
Qed.

Lemma count_below_one_is_zero (w : Z) :
  0 <= w < 1065353216 -> float_to_int (bits_to_float w) = Ok 0.
Proof.
  intros Hw. destruct (word_fields w Hw) as [He Hm]. unfold bits_to_float.
  set (e := Z.land (Z.shiftr w 23) 255) in *.
  set (m := Z.land w (2 ^ 23 - 1)) in *. clearbody e m.
  destruct (e =? 0) eqn:E0.
  - destruct (m =? 0) eqn:M0; [reflexivity|].
    apply Z.eqb_neq in M0. apply float_to_int_small; [lia|].
    rewrite Z2Pos.id by lia. change (- -149) with 149.
    assert (2 ^ 23 <= 2 ^ 149) by (apply Z.pow_le_mono_r; lia). lia.
  - apply Z.eqb_neq in E0.
    destruct (e =? 255) eqn:E255; [apply Z.eqb_eq in E255; lia|].
    apply float_to_int_small; [lia|].
    rewrite Z2Pos.id by lia.
    assert (2 ^ 24 <= 2 ^ (- (e - 150))) by (apply Z.pow_le_mono_r; lia). lia.
Qed.

(** X8. The first word of the width array is read as a float: whenever it
    is below 0x3F800000, the word of 1.0f (as is a count stored as a 32-bit
    integer below that number), the first commit calls initData with the
    count 0. *)
Theorem commit_count_word_below_one
    (params : gmap string Param) (self : Impi) (wd pd vd : Data)
    (w0 : Z) (wrest : list Z) :
  voxelSource self = None ->
  getParamData params "octantWidthArray" = Some wd ->
  getParamData params "octantPointArray" = Some pd ->
  getParamData params "octantValueArray" = Some vd ->
  data wd = w0 :: wrest ->
  0 <= w0 < 1065353216 ->
  commit params self =
    (testOct ← TestOctant_initData 0 (as_vec3f (data pd))
                 (as_floats wrest) (as_floats (data vd)) TestOctant_new;
     Ok (mk_Impi (Some (SrcTestOctant testOct))
                 (getParam1f params "isoValue" f0_7) (activeVoxelRefs self))).
Proof.
  intros Hnone Hwd Hpd Hvd Hdata Hw0.
  pose proof (count_below_one_is_zero w0 Hw0) as Hnum.
  assert (Hrun := commit_body_first_run initVoxelSourceAndIsoValue params self
                    _ wd pd vd w0 wrest 0 Hnone eq_refl Hwd Hpd Hvd Hdata Hnum).
  cbn [voxelSource activeVoxelRefs dynamic_pointer_cast_TestOctant deref] in Hrun.
  bind_red_in Hrun. exact Hrun.
Qed.

Lemma commit_count_word_below_one_witness :
  commit (<["octantWidthArray" :=
              ParamData (mk_Data [2; Sample.w1; Sample.w0_5])]> Sample.params)
         Sample.fresh =
    (testOct ← TestOctant_initData 0 (as_vec3f (data Sample.pointArray))
                 (as_floats [Sample.w1; Sample.w0_5])
                 (as_floats (data Sample.valueArray)) TestOctant_new;
     Ok (mk_Impi (Some (SrcTestOctant testOct))
                 (getParam1f
                    (<["octantWidthArray" :=
                         ParamData (mk_Data [2; Sample.w1; Sample.w0_5])]>
                       Sample.params) "isoValue" f0_7)
                 (activeVoxelRefs Sample.fresh))).
Proof.
  apply (commit_count_word_below_one
           (<["octantWidthArray" :=
                ParamData (mk_Data [2; Sample.w1; Sample.w0_5])]> Sample.params)
           Sample.fresh (mk_Data [2; Sample.w1; Sample.w0_5])
           Sample.pointArray Sample.valueArray 2 [Sample.w1; Sample.w0_5]);
    try (vm_compute; reflexivity).
  lia.
Defined.

(** ** The point buffer seen as vec3f *)


(** X9. Through the vec3f pointer, element i of the point buffer is made
    of the words 3i, 3i+1 and 3i+2, each read as a float, and exists
    exactly when all three do; so a buffer of n words holds n/3 points and
    the one or two words left over are never read. *)
Theorem as_vec3f_layout (ws : list Z) :
  (forall i v, as_vec3f ws !! i = Some v <->
     exists x y z,
       ws !! (3 * i)%nat = Some x /\ ws !! (3 * i + 1)%nat = Some y /\
       ws !! (3 * i + 2)%nat = Some z /\
       v = mk_vec3f (bits_to_float x) (bits_to_float y) (bits_to_float z)) /\
  length (as_vec3f ws) = (length ws / 3)%nat.
Proof.
  split; [intros i v; apply as_vec3f_lookup|].
  assert (Hlt : forall i, (i < length (as_vec3f ws))%nat <->
                          (3 * i + 2 < length ws)%nat).
  { intros i. rewrite <- !lookup_lt_is_Some. split.
    - intros [v Hv]. apply as_vec3f_lookup in Hv as (x & y & z & _ & _ & Hz & _).
      eauto.
    - intros [z Hz].
      destruct (lookup_lt_is_Some_2 ws (3 * i)) as [x Hx];
        [apply lookup_lt_Some in Hz; lia|].
      destruct (lookup_lt_is_Some_2 ws (3 * i + 1)) as [y Hy];
        [apply lookup_lt_Some in Hz; lia|].
      eexists. apply as_vec3f_lookup. eauto 10. }
  set (L := length (as_vec3f ws)) in *. set (n := length ws) in *.
  assert (H1 : ~ (3 * L + 2 < n)%nat) by (rewrite <- Hlt; lia).
  assert (H2 : (L = 0 \/ 3 * (L - 1) + 2 < n)%nat).
  { destruct L as [|L']; [now left|right]. apply Hlt. lia. }
  clearbody L n. apply (Nat.div_unique n 3 L (n - 3 * L)); lia.
Qed.

(** ** The file name and the iso-value of the viewer *)

Lemma find_last_of_Some (s : string) (c : ascii) (i : nat) :
  find_last_of s c = Some i ->
  exists pre post,
    s = pre +:+ String c post /\ String.length pre = i /\
    find_last_of post c = None /\ string_drop (S i) s = post /\
    (i < String.length s)%nat.
Proof.
  revert i. induction s as [|a rest IH]; intros i; cbn [find_last_of].
  - discriminate.
  - destruct (find_last_of rest c) as [j|] eqn:E.
    + intros [= <-]. destruct (IH j eq_refl) as (pre & post & -> & Hlen & Hnone & Hdrop & Hlt).
      exists (String a pre), post. repeat split; simpl; auto; lia.
    + destruct (Ascii.eqb a c) eqn:Ea; [|discriminate].
      intros [= <-]. apply Ascii.eqb_eq in Ea as ->.
      exists EmptyString, rest. repeat split; simpl; auto; lia.
Qed.

Lemma find_last_of_append (pre post : string) (c : ascii) :
  find_last_of post c = None ->
  find_last_of (pre +:+ String c post) c = Some (String.length pre).
Proof.
  intros Hpost. induction pre as [|a pre IH]; simpl.
  - rewrite Hpost. rewrite Ascii.eqb_refl. reflexivity.
  - now rewrite IH.
Qed.

Lemma viewerFileName_no_slash (name : string) :
  find_last_of name "/" = None -> viewerFileName name = Ok name.
Proof.
  intros H. unfold viewerFileName, substr. rewrite H.
  change (pos_to_int None + 1) with 0.
  destruct (Z.leb_spec 0 (Z.of_nat (String.length name))); [reflexivity|lia].
Qed.

Lemma string_drop_append (pre post : string) (c : ascii) :
  string_drop (S (String.length pre)) (pre +:+ String c post) = post /\
  (String.length pre < String.length (pre +:+ String c post))%nat.
Proof.
  induction pre as [|a pre [IH1 IH2]]; simpl.
  - split; [reflexivity|lia].
  - split; [exact IH1|lia].
Qed.

Lemma viewerFileName_join (dir name : string) :
  find_last_of name "/" = None ->
  viewerFileName (dir +:+ String "/" name) = Ok name.
Proof.
  intros H. unfold viewerFileName.
  rewrite (find_last_of_append dir name "/" H).
  destruct (string_drop_append dir name "/") as [Hdrop Hlt].
  unfold substr, pos_to_int.
  destruct (Z.leb_spec (Z.of_nat (String.length dir) + 1)
              (Z.of_nat (String.length (dir +:+ String "/" name)))) as [_|Hbad];
    [|lia].
  replace (Z.to_nat (Z.of_nat (String.length dir) + 1))
    with (S (String.length dir)) by lia.
  now rewrite Hdrop.
Qed.

Lemma append_slash (pre post : string) :
  (pre +:+ "/") +:+ post = pre +:+ String "/" post.
Proof.
  induction pre as [|a pre IH]; [reflexivity|].
  change (String a ((pre +:+ "/") +:+ post) = String a (pre +:+ String "/" post)).
  now rewrite IH.
Qed.

(** X11. The file name the viewer cuts out of its path argument is the
    part after the last slash: it holds no slash, the path is a directory
    part followed by it, and the directory part is empty or ends in a
    slash; the substr call never throws. *)
Theorem viewerFileName_is_base_name (filePath : string) :
  exists dir name,
    viewerFileName filePath = Ok name /\
    filePath = dir +:+ name /\
    find_last_of name "/" = None /\
    (dir = EmptyString \/ exists d, dir = d +:+ "/").
Proof.
  destruct (find_last_of filePath "/") as [i|] eqn:E.
  - apply find_last_of_Some in E as (pre & post & -> & _ & Hnone & _ & _).
    exists (pre +:+ "/"), post. split; [now apply viewerFileName_join|].
    split; [now rewrite append_slash|]. split; [exact Hnone|]. right. eauto.
  - exists EmptyString, filePath. split; [now apply viewerFileName_no_slash|].
    split; [reflexivity|]. split; [exact E|]. now left.
Qed.

Lemma viewerIsoValue_of_name (filePath name : string) :
  viewerFileName filePath = Ok name ->
  viewerIsoValue filePath =
  Ok (if String.eqb name "cb.osp" then f99000
      else if String.eqb name "chombo_amr.osp" then f0_7 else f0).
Proof.
  intros H. unfold viewerIsoValue. rewrite H. bind_red.
  destruct (String.eqb name "cb.osp") eqn:E; reflexivity.
Qed.

(** X12. The iso-value the viewer picks depends on the base name of the
    path alone, whatever directory precedes it: 0.7 for chombo_amr.osp,
    99000 for cb.osp and 0 for every other name. *)
Theorem viewerIsoValue_by_base_name (dir name : string) :
  find_last_of name "/" = None ->
  viewerIsoValue (dir +:+ String "/" name) = viewerIsoValue name /\
  viewerIsoValue name =
    Ok (if String.eqb name "chombo_amr.osp" then f0_7
        else if String.eqb name "cb.osp" then f99000 else f0).
Proof.
  intros H.
  rewrite (viewerIsoValue_of_name _ name (viewerFileName_join dir name H)).
  rewrite (viewerIsoValue_of_name _ name (viewerFileName_no_slash name H)).
  split; [reflexivity|].
  destruct (String.eqb name "chombo_amr.osp") eqn:E1.
  - apply String.eqb_eq in E1 as ->. reflexivity.
  - reflexivity.
Qed.

Lemma viewerIsoValue_by_base_name_witness :
  viewerIsoValue ("/data/amr" +:+ String "/" "cb.osp") = viewerIsoValue "cb.osp" /\
  viewerIsoValue "cb.osp" =
    Ok (if String.eqb "cb.osp" "chombo_amr.osp" then f0_7
        else if String.eqb "cb.osp" "cb.osp" then f99000 else f0).
Proof.
  apply (viewerIsoValue_by_base_name "/data/amr" "cb.osp"). reflexivity.
Defined.

(** ** The materials handed to the renderer *)

Lemma pushMaterial_fold (l acc : list OSPObject) :
  fold_left pushMaterial l acc = acc ++ filter (fun m => m <> 0%N) l.
Proof.
  revert acc. induction l as [|m l IH]; intros acc; simpl.
  - now rewrite app_nil_r.
  - rewrite IH, filter_cons. unfold pushMaterial.
    destruct (N.eqb_spec m 0) as [->|Hm].
    + now rewrite decide_False by congruence.
    + rewrite decide_True by assumption. now rewrite <- app_assoc.
Qed.

(** X13. postCommit of the scene-graph node sets a material list exactly
    when the node's list is not empty, and the data it sets holds the
    non-null handles of that list in their order and nothing else, so
    never a null handle; a list of null handles alone gives empty data. *)
Theorem postCommit_materialList_nonnull (materialList : list OSPObject) :
  (postCommit_materialList materialList = None <-> materialList = []) /\
  (forall mats, postCommit_materialList materialList = Some mats ->
     mats = filter (fun m => m <> 0%N) materialList /\
     Forall (fun m => m <> 0%N) mats /\
     mats `sublist_of` materialList) /\
  (materialList <> [] -> Forall (fun m => m = 0%N) materialList ->
   postCommit_materialList materialList = Some []).
Proof.
  unfold postCommit_materialList. rewrite pushMaterial_fold. simpl.
  split; [|split].
  - case_decide; split; congruence.
  - intros mats. case_decide; [discriminate|]. intros [= <-].
    split; [reflexivity|]. split.
    + apply Forall_forall. intros m Hm. now apply list_elem_of_filter in Hm.
    + apply sublist_filter.
  - intros Hne Hall. rewrite decide_False by assumption. f_equal. clear Hne.
    induction Hall as [|m l Hm _ IH]; [reflexivity|].
    rewrite filter_cons. rewrite decide_False by (now rewrite Hm). exact IH.
Qed.
